(** * Geometry and layout core of ltspice_to_svg

    A shallow embedding of the parts of the LTspice-to-SVG converter that
    place symbols, emit shapes and text, and find wire T-junctions.
    Coordinates read by the parsers are integers ([Z]); coordinates that
    have gone through a scale factor or a division are rationals ([Q]).
    Python dictionaries are association lists, Python exceptions are the
    [Err] branch of a small result type. *)

From Stdlib Require Import ZArith QArith Qabs Qround String Ascii List Bool Lia.
From Stdlib Require Import PrimFloat.
From Stdlib Require Uint63.
Import ListNotations.
Open Scope Z_scope.

(** ** Python helpers *)

(** Result of a Python computation that may raise; an exception is known
    by the name of its class. *)
Inductive result (A : Type) : Type :=
| Ok : A -> result A
| Err : string -> result A.
Arguments Ok {A} _.
Arguments Err {A} _.

Definition result_map {A B} (f : A -> B) (r : result A) : result B :=
  match r with Ok a => Ok (f a) | Err e => Err e end.

(** Decimal digits of a string, most significant first. *)
Fixpoint digits_value (s : string) (acc : Z) : option Z :=
  match s with
  | EmptyString => Some acc
  | String c rest =>
      let n := Z.of_nat (nat_of_ascii c) - 48 in
      if (0 <=? n) && (n <=? 9) then digits_value rest (acc * 10 + n) else None
  end.

(** [int(s)] on the strings the schematic parser lets through
    (an optional sign followed by decimal digits); anything else raises
    [ValueError], modelled as [None]. *)
Definition py_int (s : string) : option Z :=
  match s with
  | EmptyString => None
  | String c rest =>
      if Ascii.eqb c "-" then
        match rest with EmptyString => None | _ => option_map Z.opp (digits_value rest 0) end
      else if Ascii.eqb c "+" then
        match rest with EmptyString => None | _ => digits_value rest 0 end
      else digits_value s 0
  end.

(** [rotation_str[0]] and [int(rotation_str[1:])] with the
    [except ValueError: angle = 0] fallback; [None] is the [IndexError]
    raised on an empty rotation string. *)
Definition parse_rotation (rotation : string) : option (ascii * Z) :=
  match rotation with
  | EmptyString => None
  | String t rest =>
      Some (t, match py_int rest with Some a => a | None => 0 end)
  end.

(** ** Symbol terminal points ([SVGGenerator._get_single_symbol_terminals]) *)

Record SymbolInst : Type := mkSymbolInst {
  symbol_name : string;
  sym_x : Z;
  sym_y : Z;
  rotation : string
}.

Definition base_terminals (name : string) : list (Z * Z) :=
  if String.eqb name "NMOS" || String.eqb name "PMOS" then
    [(64, 64); (64, -64); (0, 0)]
  else if String.eqb name "VDD" then [(0, 0)]
  else if String.eqb name "GND" then [(0, 0)]
  else [].

(** The body of the loop [for tx, ty in base_terminals]. *)
Definition transform_terminal (rotation_type : ascii) (angle : Z) (p : Z * Z) : Z * Z :=
  let '(tx, ty) := p in
  let tx := if Ascii.eqb rotation_type "M" then - tx else tx in
  if angle =? 90 then (- ty, tx)
  else if angle =? 180 then (- tx, - ty)
  else if angle =? 270 then (ty, - tx)
  else (tx, ty).

(** Terminal points of one symbol; [None] is the [IndexError] of an
    empty rotation string. *)
Definition symbol_terminals (s : SymbolInst) : option (list (Z * Z)) :=
  match base_terminals (symbol_name s) with
  | [] => Some []
  | bts =>
      match parse_rotation (rotation s) with
      | None => None
      | Some (t, angle) =>
          Some (map (fun p => let '(tx, ty) := transform_terminal t angle p in
                              (sym_x s + tx, sym_y s + ty)) bts)
      end
  end.

(** [_get_single_symbol_terminals] over a list of symbols. The
    generator's own [_get_symbol_terminals] does not call it: it adds the
    unrotated base offsets ([generator_symbol_terminals] below). *)
Fixpoint get_symbol_terminals (symbols : list SymbolInst) : option (list (Z * Z)) :=
  match symbols with
  | [] => Some []
  | s :: rest =>
      match symbol_terminals s, get_symbol_terminals rest with
      | Some a, Some b => Some (a ++ b)
      | _, _ => None
      end
  end.

(** ** The rotation table of the specification *)

Inductive rot_kind : Type := KindR | KindM.
Inductive quarter : Type := Q0 | Q90 | Q180 | Q270.

Definition kind_char (k : rot_kind) : ascii :=
  match k with KindR => "R" | KindM => "M" end%char.

Definition quarter_deg (q : quarter) : Z :=
  match q with Q0 => 0 | Q90 => 90 | Q180 => 180 | Q270 => 270 end.

Section Table.
Context {A : Type} (opp : A -> A).

(** Following the specification's words: negate x first for kind [M],
    then 0 -> identity, 90 -> (-y, x), 180 -> (-x, -y), 270 -> (y, -x). *)
Definition spec_rotate_mirror (k : rot_kind) (q : quarter) (p : A * A) : A * A :=
  let '(x, y) := p in
  let x := match k with KindM => opp x | KindR => x end in
  match q with
  | Q0 => (x, y)
  | Q90 => (opp y, x)
  | Q180 => (opp x, opp y)
  | Q270 => (y, opp x)
  end.
End Table.

(** Rotation strings as the schematic parser produces them. *)
Definition quarter_str (q : quarter) : string :=
  match q with Q0 => "0" | Q90 => "90" | Q180 => "180" | Q270 => "270" end.

Definition rotation_code (k : rot_kind) (q : quarter) : string :=
  String (kind_char k) (quarter_str q).

(** ** SVG group transforms *)

Inductive svg_op : Type :=
| Translate (a b : Q)
| ScaleXY (sx sy : Q)
| Rotate (deg : Z).

(** [cos] and [sin] of a whole number of degrees that is a multiple of
    90; other angles are not modelled ([None]). *)
Definition quarter_cos_sin (deg : Z) : option (Z * Z) :=
  let d := deg mod 360 in
  if d =? 0 then Some (1, 0)
  else if d =? 90 then Some (0, 1)
  else if d =? 180 then Some (-1, 0)
  else if d =? 270 then Some (0, -1)
  else None.

Definition apply_op (o : svg_op) (p : Q * Q) : option (Q * Q) :=
  let '(x, y) := p in
  match o with
  | Translate a b => Some (a + x, b + y)%Q
  | ScaleXY sx sy => Some (sx * x, sy * y)%Q
  | Rotate deg =>
      match quarter_cos_sin deg with
      | Some (c, s) =>
          Some (inject_Z c * x - inject_Z s * y, inject_Z s * x + inject_Z c * y)%Q
      | None => None
      end
  end.

(** An SVG transform list [t1 t2 ... tn] maps a point through [tn] first
    and [t1] last. *)
Fixpoint apply_transform (ops : list svg_op) (p : Q * Q) : option (Q * Q) :=
  match ops with
  | [] => Some p
  | o :: rest =>
      match apply_transform rest p with
      | Some p' => apply_op o p'
      | None => None
      end
  end.

(** [generators.symbol_renderer.render_symbol]: translate to the scaled
    position, then [scale(-1,1)] for kind [M], then [rotate(angle)] when
    the angle is not 0. *)
Definition render_symbol_transform (x y : Z) (scale : Q) (rotation : string)
  : option (list svg_op) :=
  match parse_rotation rotation with
  | None => None
  | Some (rotation_type, angle) =>
      Some ([Translate (inject_Z x * scale) (inject_Z y * scale)]
            ++ (if Ascii.eqb rotation_type "M" then [ScaleXY (-1) 1] else [])
            ++ (if angle =? 0 then [] else [Rotate angle]))
  end.

(** [renderers.symbol_renderer.SymbolRenderer.set_transformation]:
    translate, then [rotate(angle)] when the angle is not 0, then
    [scale(-1,1)] for kind [M]. *)
Definition set_transformation (rotation : string) (translation : Q * Q)
  : option (list svg_op) :=
  let '(x, y) := translation in
  match parse_rotation rotation with
  | None => None
  | Some (rotation_type, angle) =>
      Some ([Translate x y]
            ++ (if angle =? 0 then [] else [Rotate angle])
            ++ (if Ascii.eqb rotation_type "M" then [ScaleXY (-1) 1] else []))
  end.

Definition peq (p r : Q * Q) : Prop := (fst p == fst r)%Q /\ (snd p == snd r)%Q.

Definition add_pt (t p : Q * Q) : Q * Q := (fst t + fst p, snd t + snd p)%Q.

(** The result of a transform list, compared with a point. *)
Definition transform_gives (ops : option (list svg_op)) (p r : Q * Q) : Prop :=
  match ops with
  | Some ops =>
      match apply_transform ops p with Some r' => peq r' r | None => False end
  | None => False
  end.

(** The quarter the table must be read at to match [render_symbol]'s
    group transform: kind [M] with 90 or 270 degrees swaps the two. *)
Definition generator_quarter (k : rot_kind) (q : quarter) : quarter :=
  match k, q with
  | KindM, Q90 => Q270
  | KindM, Q270 => Q90
  | _, _ => q
  end.

(** ** T-junctions *)

Record Wire : Type := mkWire { x1 : Z; y1 : Z; x2 : Z; y2 : Z }.

Definition pt_eq_dec : forall a b : Z * Z, {a = b} + {a <> b}.
Proof. decide equality; apply Z.eq_dec. Defined.

Definition pt_eqb (a b : Z * Z) : bool := if pt_eq_dec a b then true else false.

(** One more wire end at [p] in an insertion-ordered tally (a Python
    dict of counters, or the [endpoint_coords] list of the renderer). *)
Fixpoint bump (p : Z * Z) (m : list ((Z * Z) * nat)) : list ((Z * Z) * nat) :=
  match m with
  | [] => [(p, 1%nat)]
  | (q, n) :: rest => if pt_eqb p q then (q, S n) :: rest else (q, n) :: bump p rest
  end.

(** [point_to_ends[(x1, y1)] += 1; point_to_ends[(x2, y2)] += 1] for
    every wire in order. *)
Definition tally (wires : list Wire) : list ((Z * Z) * nat) :=
  fold_left (fun m w => bump (x2 w, y2 w) (bump (x1 w, y1 w) m)) wires [].

(** Reading the tally: the counter stored for [p] (0 when absent). *)
Fixpoint lookup_count (p : Z * Z) (m : list ((Z * Z) * nat)) : nat :=
  match m with
  | [] => 0
  | (q, n) :: rest => if pt_eqb p q then n else lookup_count p rest
  end.

(** [SVGGenerator._get_symbol_terminals(symbols)]: the base terminal
    points of NMOS, PMOS, VDD and GND translated to the symbol position,
    with no rotation or mirroring applied. *)
Definition generator_symbol_terminals (symbols : list SymbolInst) : list (Z * Z) :=
  flat_map (fun s => map (fun '(tx, ty) => (sym_x s + tx, sym_y s + ty))
                         (base_terminals (symbol_name s))) symbols.

Section Directions.
(** [round(dx / length, 6), round(dy / length, 6)] of a non-zero
    integer vector, as integers counting millionths. *)
Variable unit_dir : Z -> Z -> Z * Z.

(** One iteration of the loop over all wires gathering
    [wire_directions] at [point]. *)
Definition direction_step (point : Z * Z) (acc : list (Z * Z)) (w : Wire) : list (Z * Z) :=
  let d :=
    if pt_eqb (x1 w, y1 w) point then Some (x2 w - x1 w, y2 w - y1 w)
    else if pt_eqb (x2 w, y2 w) point then Some (x1 w - x2 w, y1 w - y2 w)
    else None in
  match d with
  | Some (dx, dy) =>
      if (dx =? 0) && (dy =? 0) then acc
      else if existsb (pt_eqb (unit_dir dx dy)) acc then acc
      else acc ++ [unit_dir dx dy]
  | None => acc
  end.

Definition wire_directions (point : Z * Z) (wires : list Wire) : list (Z * Z) :=
  fold_left (direction_step point) wires [].

(** [SVGGenerator._find_t_junctions(wires, symbols)]: the terminal
    points come from [_get_symbol_terminals]. *)
Definition find_t_junctions (wires : list Wire) (symbols : list SymbolInst)
  : list (Z * Z) :=
  let terminal_points := generator_symbol_terminals symbols in
  map fst
    (filter (fun '(point, count) =>
               (3 <=? count)%nat
               && negb (existsb (pt_eqb point) terminal_points)
               && (3 <=? length (wire_directions point wires))%nat)
            (tally wires)).

(** Following the specification's words: the number of wire ends at [p],
    the unit directions of the wires incident at [p] seen from [p], and
    the qualification rule. *)
Definition wire_ends (w : Wire) : list (Z * Z) := [(x1 w, y1 w); (x2 w, y2 w)].

Definition ends_at (p : Z * Z) (wires : list Wire) : nat :=
  length (filter (pt_eqb p) (flat_map wire_ends wires)).

Definition incident_vectors (p : Z * Z) (wires : list Wire) : list (Z * Z) :=
  flat_map (fun w =>
              (if pt_eqb (x1 w, y1 w) p then [(x2 w - fst p, y2 w - snd p)] else [])
              ++ (if pt_eqb (x2 w, y2 w) p then [(x1 w - fst p, y1 w - snd p)] else []))
           wires.

Definition distinct_directions (p : Z * Z) (wires : list Wire) : nat :=
  length (nodup pt_eq_dec
            (map (fun v => unit_dir (fst v) (snd v))
                 (filter (fun v => negb ((fst v =? 0) && (snd v =? 0)))
                         (incident_vectors p wires)))).

Definition spec_t_junction (p : Z * Z) (wires : list Wire) : Prop :=
  (3 <= ends_at p wires)%nat /\ (3 <= distinct_directions p wires)%nat.
End Directions.

(** [SVGRenderer._find_t_junctions(wires)] of [renderers/svg_renderer.py]:
    the coordinates whose occurrence count reaches 3. *)
Definition renderer_find_t_junctions (wires : list Wire) : list (Z * Z) :=
  map fst (filter (fun '(_, n) => (3 <=? n)%nat) (tally wires)).

(** Exact direction of a non-zero integer vector: the vector divided by
    the gcd of its coordinates. Two such vectors have the same unit
    direction exactly when they have the same exact direction. *)
Definition exact_dir (dx dy : Z) : Z * Z :=
  let g := Z.gcd dx dy in (dx / g, dy / g).

(** Sample inputs: three wire ends at the origin, two of them in the same
    direction; three wire ends at the origin in three directions; an NMOS
    symbol placed at the origin. *)
Definition collinear_wires : list Wire :=
  [mkWire 0 0 10 0; mkWire 0 0 20 0; mkWire 0 0 0 10].

Definition tee_wires : list Wire :=
  [mkWire 0 0 10 0; mkWire 0 0 (-10) 0; mkWire 0 0 0 10].

Definition nmos_at_origin : SymbolInst := mkSymbolInst "NMOS" 0 0 "R0".

(** ** Window text placement *)

Record Window : Type := mkWindow {
  win_x : Z;
  win_y : Z;
  win_justification : string;
  win_size_multiplier : option Z
}.

(** Keys of [window_overrides]: Python dict keys may be integers or
    strings, and [0] and ["0"] are different keys. *)
Inductive wkey : Type := KInt (i : Z) | KStr (s : string).

Definition wkey_eqb (a b : wkey) : bool :=
  match a, b with
  | KInt i, KInt j => Z.eqb i j
  | KStr s, KStr t => String.eqb s t
  | _, _ => false
  end.

Fixpoint key_lookup {V : Type} (k : wkey) (m : list (wkey * V)) : option V :=
  match m with
  | [] => None
  | (k', v) :: rest => if wkey_eqb k k' then Some v else key_lookup k rest
  end.

Fixpoint str_lookup {V : Type} (k : string) (m : list (string * V)) : option V :=
  match m with
  | [] => None
  | (k', v) :: rest => if String.eqb k k' then Some v else str_lookup k rest
  end.

(** The [text_data] dictionary handed to the text renderer. *)
Record TextData : Type := mkTextData {
  td_x : Z;
  td_y : Z;
  td_text : string;
  td_justification : string;
  td_size_multiplier : Z;
  td_is_mirrored : bool
}.

(** The symbol definition dict held by [SymbolRenderer]: its ["windows"]
    entry, a dict keyed by property id strings ([None] when the key is
    absent), and the names of its other keys. *)
Record SymbolDef : Type := mkSymbolDef {
  def_windows : option (list (string * Window));
  def_other_keys : list string
}.

(** [not self._symbol_def]: the dict is empty. *)
Definition symbol_def_empty (d : SymbolDef) : bool :=
  match def_windows d, def_other_keys d with
  | None, [] => true
  | _, _ => false
  end.

(** [self._symbol_def.get('windows', {})]. *)
Definition get_windows (d : SymbolDef) : list (string * Window) :=
  match def_windows d with Some ws => ws | None => [] end.

(** [SymbolRenderer._render_window_property(property_id, property_value)]:
    [started] is whether [begin_symbol] set [_current_group], [symbol_def]
    the definition set by [set_symbol_definition], [window_overrides] the
    instance's overrides; [Ok None] means nothing is rendered. *)
Definition render_window_property (started : bool) (symbol_def : SymbolDef)
  (window_overrides : list (wkey * Window)) (is_mirrored : bool)
  (property_id property_value : string) : result (option TextData) :=
  if negb started then Err "ValueError"%string
  else if symbol_def_empty symbol_def then Err "ValueError"%string
  else
  match get_windows symbol_def with
  | [] => Ok None
  | windows =>
      match str_lookup property_id windows with
      | None => Ok None
      | Some window_def =>
          let int_hit := match py_int property_id with
                         | Some i => key_lookup (KInt i) window_overrides
                         | None => None
                         end in
          let window_settings :=
            match int_hit with
            | Some w => w
            | None =>
                match key_lookup (KStr property_id) window_overrides with
                | Some w => w
                | None => window_def
                end
            end in
          Ok (Some (mkTextData (win_x window_settings) (win_y window_settings)
                  property_value (win_justification window_settings)
                  (match win_size_multiplier window_settings with Some m => m | None => 0 end)
                  is_mirrored))
      end
  end.

(** [render_component_name] and [render_component_value]. *)
Definition render_component_name (started : bool) (symbol_def : SymbolDef)
  (no_component_name : bool) (window_overrides : list (wkey * Window)) (is_mirrored : bool)
  (instance_name : string) : result (option TextData) :=
  if negb started then Err "ValueError"%string
  else if symbol_def_empty symbol_def then Err "ValueError"%string
  else if no_component_name then Ok None
  else if String.eqb instance_name EmptyString then Ok None
  else render_window_property started symbol_def window_overrides is_mirrored "0" instance_name.

Definition render_component_value (started : bool) (symbol_def : SymbolDef)
  (no_component_value : bool) (window_overrides : list (wkey * Window)) (is_mirrored : bool)
  (value : string) : result (option TextData) :=
  if negb started then Err "ValueError"%string
  else if symbol_def_empty symbol_def then Err "ValueError"%string
  else if no_component_value then Ok None
  else if String.eqb value EmptyString then Ok None
  else render_window_property started symbol_def window_overrides is_mirrored "3" value.

(** [generators.symbol_renderer.render_symbol]: the definition's windows
    are a list of entries carrying their [property_id]; the first entry
    with the wanted id is used, and overrides are not consulted. *)
Fixpoint find_window (pid : Z) (windows : list (Z * Window)) : option Window :=
  match windows with
  | [] => None
  | (id, w) :: rest => if Z.eqb id pid then Some w else find_window pid rest
  end.

(** The [text_data] built from a window entry: [window['size_multiplier']]
    raises [KeyError] when the entry has none. *)
Definition window_text (w : Window) (content : string) : result TextData :=
  match win_size_multiplier w with
  | Some m => Ok (mkTextData (win_x w) (win_y w) content (win_justification w) m false)
  | None => Err "KeyError"%string
  end.

Definition generator_instance_name_text (no_text : bool) (windows : list (Z * Window))
  (instance_name : string) : result (option TextData) :=
  if String.eqb instance_name EmptyString || no_text then Ok None
  else match find_window 0 windows with
       | Some w => result_map Some (window_text w instance_name)
       | None => Ok (Some (mkTextData 0 (-16) instance_name "Center" 2 false))
       end.

Definition generator_value_text (no_text : bool) (windows : list (Z * Window))
  (value : string) : result (option TextData) :=
  if String.eqb value EmptyString || no_text then Ok None
  else match find_window 3 windows with
       | Some w => result_map Some (window_text w value)
       | None => Ok None
       end.

(** Following the specification's words: the instance override (integer
    key first, then string key), else the definition's window, else the
    built-in default. *)
Definition default_window (p : Z) : Window :=
  mkWindow 0 (if Z.eqb p 0 then -16 else 16) "Center" (Some 2).

Definition spec_window (p : Z) (pid : string) (windows : list (string * Window))
  (window_overrides : list (wkey * Window)) : Window :=
  match key_lookup (KInt p) window_overrides with
  | Some w => w
  | None =>
      match key_lookup (KStr pid) window_overrides with
      | Some w => w
      | None =>
          match str_lookup pid windows with
          | Some w => w
          | None => default_window p
          end
      end
  end.

Definition sample_window : Window := mkWindow 5 5 "Right" (Some 3).

(** ** Arcs *)

(** Python's [<] on numbers. *)
Definition qltb (a b : Q) : bool := Z.ltb (Qnum a * Z.pos (Qden b)) (Qnum b * Z.pos (Qden a)).

(** Python's [a % 360] on a number: the result lies in [0, 360). *)
Definition py_mod360 (a : Q) : Q := (a - 360 * inject_Z (Qfloor (a / 360)))%Q.

(** The flags of the elliptical-arc command written by [_create_arc]
    (and by the arc loop of [generators.symbol_renderer.render_symbol]):
    large-arc is 1 when [(end_angle - start_angle) % 360 > 180], sweep is
    always 1. Angles are in degrees. *)
Definition create_arc_flags (start_angle end_angle : Q) : Z * Z :=
  (if qltb 180 (py_mod360 (end_angle - start_angle)) then 1 else 0, 1).

(** Python floats are IEEE binary64 numbers, as Rocq's primitive
    floats: [math.pi], and [math.radians(x)], which CPython computes as
    [x * (pi / 180.0)]. *)
Definition math_pi : PrimFloat.float := 0x1.921fb54442d18p+1%float.

Definition deg_to_rad : PrimFloat.float := PrimFloat.div math_pi 180%float.

Definition radians (x : PrimFloat.float) : PrimFloat.float := PrimFloat.mul x deg_to_rad.

(** The flags written by [render_arc] (and by the arc loop of
    [SVGGenerator._add_shapes]): both angles are converted to radians,
    large-arc is [abs(end_angle - start_angle) > math.pi] and sweep is
    [end_angle > start_angle], all in floating point. *)
Definition render_arc_flags (start_angle end_angle : PrimFloat.float) : Z * Z :=
  let start_angle := radians start_angle in
  let end_angle := radians end_angle in
  (if PrimFloat.ltb math_pi (PrimFloat.abs (PrimFloat.sub end_angle start_angle)) then 1 else 0,
   if PrimFloat.ltb start_angle end_angle then 1 else 0).

(** A whole number of degrees in [0, 360) as a Python float. *)
Definition deg (n : Z) : PrimFloat.float := PrimFloat.of_uint63 (Uint63.of_Z n).

(** The starts [a] in [0, 180) for which the half turn between [a] and
    [a + 180] (either way round) gets large-arc 1 from [render_arc]:
    there [radians(a + 180) - radians(a)] rounds above [math.pi]. *)
Definition half_turn_large : list Z :=
  [1; 10; 12; 21; 30; 39; 52; 56; 61; 65; 70; 74; 79; 83; 88; 92; 97;
   101; 106; 110; 115; 119; 120; 124; 128; 129; 133; 137; 138; 142; 146;
   147; 151; 155; 156; 160; 164; 165; 169; 173; 174; 178].

(** The flags of [render_arc] read on whole degrees. *)
Definition degree_arc_flags (a b : Z) : Z * Z :=
  (if 180 <? Z.abs (b - a) then 1
   else if Z.abs (b - a) <? 180 then 0
   else if existsb (Z.eqb (Z.min a b)) half_turn_large then 1 else 0,
   if a <? b then 1 else 0).

Definition degree_grid : list Z := map Z.of_nat (seq 0 360).

(** Both readings agree on every pair of whole degrees in [0, 360). *)
Definition render_arc_grid_ok : bool :=
  forallb (fun a => forallb (fun b =>
             let '(l, w) := render_arc_flags (deg a) (deg b) in
             let '(l', w') := degree_arc_flags a b in
             (l =? l') && (w =? w')) degree_grid) degree_grid.

(** ** Circles and ellipses *)

Inductive Primitive : Type :=
| PCircle (cx cy r : Q)
| PEllipse (cx cy rx ry : Q).

(** [_create_circle(dwg, x1, y1, x2, y2, ...)]. *)
Definition create_circle (x1 y1 x2 y2 : Q) : Primitive :=
  let cx := ((x1 + x2) / 2)%Q in
  let cy := ((y1 + y2) / 2)%Q in
  let rx := (Qabs (x2 - x1) / 2)%Q in
  let ry := (Qabs (y2 - y1) / 2)%Q in
  if qltb (Qabs (rx - ry)) (1 # 100) then PCircle cx cy rx
  else PEllipse cx cy rx ry.

(** [render_circle(dwg, circle, scale, stroke_width)] on the integer
    coordinates of a parsed [CIRCLE] record: [rx == ry] decides. *)
Definition render_circle (x1 y1 x2 y2 : Z) (scale : Q) : Primitive :=
  let rx := (inject_Z (Z.abs (x2 - x1)) / 2)%Q in
  let ry := (inject_Z (Z.abs (y2 - y1)) / 2)%Q in
  let cx := (inject_Z (x1 + x2) / 2)%Q in
  let cy := (inject_Z (y1 + y2) / 2)%Q in
  if Qeq_bool rx ry then PCircle (cx * scale) (cy * scale) (rx * scale)
  else PEllipse (cx * scale) (cy * scale) (rx * scale) (ry * scale).

(** Following the specification's words: centre, radii, and the 0.01
    threshold between a circle and an ellipse. *)
Definition spec_circle (x1 y1 x2 y2 : Q) : Primitive :=
  let rx := (Qabs (x2 - x1) / 2)%Q in
  let ry := (Qabs (y2 - y1) / 2)%Q in
  if qltb (Qabs (rx - ry)) (1 # 100)
  then PCircle ((x1 + x2) / 2) ((y1 + y2) / 2) rx
  else PEllipse ((x1 + x2) / 2) ((y1 + y2) / 2) rx ry.

Definition scale_primitive (scale : Q) (p : Primitive) : Primitive :=
  match p with
  | PCircle cx cy r => PCircle (cx * scale) (cy * scale) (r * scale)
  | PEllipse cx cy rx ry => PEllipse (cx * scale) (cy * scale) (rx * scale) (ry * scale)
  end.

(** ** Dash arrays *)

(** [s.split(sep)] for a one-character separator. *)
Fixpoint py_split_aux (sep : ascii) (s cur : string) : list string :=
  match s with
  | EmptyString => [cur]
  | String c rest =>
      if Ascii.eqb c sep then cur :: py_split_aux sep rest EmptyString
      else py_split_aux sep rest (String.append cur (String c EmptyString))
  end.

Definition py_split (sep : ascii) (s : string) : list string := py_split_aux sep s EmptyString.

(** [sep.join(items)]. *)
Fixpoint py_join (sep : string) (items : list string) : string :=
  match items with
  | [] => EmptyString
  | [x] => x
  | x :: rest => String.append x (String.append sep (py_join sep rest))
  end.

Section DashArray.
(** Python's [float(token)] ([None] when it raises [ValueError]) and
    [str(number)]. *)
Variable py_float : string -> option Q.
Variable py_float_str : Q -> string.

(** The generator expression [str(float(x) * stroke_width) for x in ...]
    consumed by [join]: the first token [float] rejects raises. *)
Fixpoint scale_tokens (stroke_width : Q) (tokens : list string) : result (list string) :=
  match tokens with
  | [] => Ok []
  | t :: rest =>
      match py_float t with
      | None => Err "ValueError"
      | Some v =>
          match scale_tokens stroke_width rest with
          | Ok l => Ok (py_float_str (v * stroke_width)%Q :: l)
          | Err e => Err e
          end
      end
  end.

(** [_scale_dash_array(dash_array, stroke_width)]; [None] for the
    [dash_array] argument is Python's [None], [Ok None] is the returned
    [None]. *)
Definition scale_dash_array (dash_array : option string) (stroke_width : Q)
  : result (option string) :=
  match dash_array with
  | None => Ok None
  | Some EmptyString => Ok None
  | Some s =>
      match scale_tokens stroke_width (py_split "," s) with
      | Ok l => Ok (Some (py_join "," l))
      | Err e => Err e
      end
  end.
End DashArray.

(** A [float] for plain decimal literals (optional sign, digits, optional
    fraction), which is what the line-style table of the parsers writes. *)
Definition decimal_float (s : string) : option Q :=
  let '(neg, body) :=
    match s with
    | String c r => if Ascii.eqb c "-" then (true, r)
                    else if Ascii.eqb c "+" then (false, r) else (false, s)
    | EmptyString => (false, s)
    end in
  let sign := if neg then -1 else 1 in
  match py_split "." body with
  | [ip] =>
      match ip, digits_value ip 0 with
      | EmptyString, _ => None
      | _, Some a => Some (inject_Z (sign * a))
      | _, None => None
      end
  | [ip; fp] =>
      match ip, fp with
      | EmptyString, EmptyString => None
      | _, _ =>
          match digits_value ip 0, digits_value fp 0 with
          | Some a, Some b =>
              let d := 10 ^ Z.of_nat (String.length fp) in
              Some (Qmake (sign * (a * d + b)) (Z.to_pos d))
          | _, _ => None
          end
      end
  | _ => None
  end.

Definition digit_char (d : Z) : ascii := ascii_of_nat (48 + Z.to_nat d).

Fixpoint nat_digits (fuel : nat) (n : Z) (acc : string) : string :=
  match fuel with
  | O => acc
  | S f =>
      let acc' := String (digit_char (n mod 10)) acc in
      if n <? 10 then acc' else nat_digits f (n / 10) acc'
  end.

Fixpoint frac_digits (fuel : nat) (num den : Z) : string :=
  match fuel with
  | O => EmptyString
  | S f =>
      if num =? 0 then EmptyString
      else String (digit_char (num * 10 / den)) (frac_digits f (num * 10 mod den) den)
  end.

(** [str] of a number with a short decimal expansion, as Python prints
    it: integer part, a point, and at least one fractional digit. *)
Definition decimal_str (q : Q) : string :=
  let n := Qnum q in
  let d := Z.pos (Qden q) in
  let a := Z.abs n in
  let ip := nat_digits 40 (a / d) EmptyString in
  let fp := match frac_digits 17 (a mod d) d with EmptyString => "0"%string | f => f end in
  String.append (if n <? 0 then "-"%string else EmptyString) (String.append ip (String.append "."%string fp)).

(** ** Text *)

(** A text record as the parsers build it; [None] is a missing key. *)
Record TextRec := mkTextRec {
  t_x : option Q;
  t_y : option Q;
  t_text : option string;
  t_justification : option string;
  t_size_multiplier : option Z;
  t_type : option string
}.

(** One [dwg.text] element of [_create_multiline_text]. *)
Record TextRun := mkTextRun {
  run_text : string;
  run_x : Q;
  run_y : Q;
  run_font_size : Q;
  run_anchor : string
}.

(** What [TextRenderer.render] adds: the runs, wrapped in a group with
    [rotate(-90, x, y)] when [out_rotation] is [Some (x, y)]. *)
Record TextOut := mkTextOut {
  out_rotation : option (Q * Q);
  out_runs : list TextRun
}.

Definition get_default {A} (o : option A) (d : A) : A :=
  match o with Some v => v | None => d end.

(** [TextRenderer.SIZE_MULTIPLIERS]. *)
Definition SIZE_MULTIPLIERS : list (Z * Q) :=
  [(0, 5#8); (1, 1#1); (2, 3#2); (3, 2#1); (4, 5#2); (5, 7#2); (6, 5#1); (7, 7#1)].

Fixpoint zassoc {A} (k : Z) (l : list (Z * A)) : option A :=
  match l with
  | [] => None
  | (k', v) :: rest => if Z.eqb k k' then Some v else zassoc k rest
  end.

(** [SIZE_MULTIPLIERS.get(k, SIZE_MULTIPLIERS[2])]: the default is
    evaluated first and raises [KeyError] if key 2 is missing. *)
Definition size_multiplier_get (k : Z) : result Q :=
  match zassoc 2 SIZE_MULTIPLIERS with
  | None => Err "KeyError"
  | Some d => Ok (get_default (zassoc k SIZE_MULTIPLIERS) d)
  end.

Definition newline : ascii := ascii_of_nat 10.

(** The loop of [_create_multiline_text] over [enumerate(lines)], with
    [line_height = font_size * 1.2]. *)
Fixpoint multiline_runs (lines : list string) (i : nat) (x y font_size : Q)
  (text_anchor : string) : list TextRun :=
  match lines with
  | [] => []
  | line :: rest =>
      mkTextRun line x (y + inject_Z (Z.of_nat i) * (font_size * (12#10)))%Q
        font_size text_anchor
      :: multiline_runs rest (S i) x y font_size text_anchor
  end.

Definition create_multiline_text (text_content : string) (x y font_size : Q)
  (text_anchor : string) : list TextRun :=
  multiline_runs (py_split newline text_content) 0 x y font_size text_anchor.

(** The prefix stripping of [render]. *)
Definition strip_text_prefix (text_type content : string) : string :=
  match content with
  | String c rest =>
      if String.eqb text_type "spice" && Ascii.eqb c "!" then rest
      else if String.eqb text_type "comment" && Ascii.eqb c ";" then rest
      else content
  | EmptyString => content
  end.

Definition text_anchor_of (justification : string) : string :=
  if String.eqb justification "Left" then "start"
  else if String.eqb justification "Right" then "end"
  else "middle".

Definition y_offset_of (justification : string) (font_size : Q) : Q :=
  if existsb (String.eqb justification) ["Left"; "Center"; "Right"]%string
  then (font_size * (3#10))%Q
  else if String.eqb justification "Top" then (font_size * (6#10))%Q
  else (font_size * 0)%Q.

Definition is_vertical (justification : string) : bool :=
  match justification with
  | String c _ => Ascii.eqb c "V"
  | EmptyString => false
  end.

Definition drop_first (s : string) : string :=
  match s with String _ rest => rest | EmptyString => EmptyString end.

(** [TextRenderer.render(text, font_size)]; [Ok None] is the early return
    for a missing or empty text. *)
Definition text_render (text : TextRec) (font_size : Q) : result (option TextOut) :=
  match t_text text with
  | None | Some EmptyString => Ok None
  | Some content0 =>
      let x := get_default (t_x text) 0%Q in
      let y := get_default (t_y text) 0%Q in
      let justification0 := get_default (t_justification text) "Left"%string in
      let size_multiplier := get_default (t_size_multiplier text) 2 in
      let text_type := get_default (t_type text) "comment"%string in
      let content := strip_text_prefix text_type content0 in
      match size_multiplier_get size_multiplier with
      | Err e => Err e
      | Ok m =>
          let fs := (font_size * m)%Q in
          let vertical := is_vertical justification0 in
          let justification :=
            if vertical then drop_first justification0 else justification0 in
          let runs := create_multiline_text content (x + 0) (y + y_offset_of justification fs)
                        fs (text_anchor_of justification) in
          Ok (Some (mkTextOut (if vertical then Some (x, y) else None) runs))
      end
  end.

(** ** Symbol instances *)

Section RenderSymbols.
(** An instance record, its [symbol.get('symbol_name', 'Unknown')] key, a
    symbol definition, the primitives a renderer draws, and
    [symbol_renderer.render] on the prepared data (it may raise). *)
Variable Sym : Type.
Variable sym_get_name : Sym -> option string.
Variable SymDef : Type.
Variable Prim : Type.
Variable render_one : Sym -> SymDef -> result (list Prim).
(** [not any([lines, circles, rectangles, arcs])] of a definition. *)
Variable text_only : SymDef -> bool.
(** [self.symbol_data] and the [no_nested_symbol_text] option. *)
Variable symbol_data : list (string * SymDef).
Variable no_nested_symbol_text : bool.

Definition missing_definition_warning (symbol_name : string) : string :=
  String.append "Symbol definition not found for " symbol_name.

(** The loop of [SVGRenderer.render_symbols]: [prims] is what has been
    drawn so far and [warns] the [logger.warning] messages. *)
Fixpoint render_symbols_loop (symbols : list Sym) (prims : list Prim) (warns : list string)
  : result (list Prim * list string) :=
  match symbols with
  | [] => Ok (prims, warns)
  | symbol :: rest =>
      let symbol_name := get_default (sym_get_name symbol) "Unknown"%string in
      match symbol_name, str_lookup symbol_name symbol_data with
      | EmptyString, _ | _, None =>
          render_symbols_loop rest prims (warns ++ [missing_definition_warning symbol_name])
      | _, Some symbol_def =>
          if no_nested_symbol_text && text_only symbol_def
          then render_symbols_loop rest prims warns
          else
            match render_one symbol symbol_def with
            | Err e => Err e
            | Ok ps => render_symbols_loop rest (prims ++ ps) warns
            end
      end
  end.

Definition render_symbols (symbols : list Sym) : result (list Prim * list string) :=
  render_symbols_loop symbols [] [].

(** The definition of an instance is missing: an empty name or a name
    that is not a key of [symbol_data]. *)
Definition definition_missing (symbol : Sym) : Prop :=
  let symbol_name := get_default (sym_get_name symbol) "Unknown"%string in
  symbol_name = EmptyString \/ str_lookup symbol_name symbol_data = None.
End RenderSymbols.

(** ** Rectangles *)

(** A rectangle record as the parsers build it: integer corners and an
    optional [style] key. *)
Record RectShape : Type := mkRectShape {
  r_x1 : Z; r_y1 : Z; r_x2 : Z; r_y2 : Z;
  r_style : option string
}.

(** Commands of an SVG path given as [(command, points)] pairs. *)
Inductive path_cmd : Type :=
| PM (p : Q * Q)
| PL (p : Q * Q)
| PZ.

(** A [dwg.rect] or a [dwg.path]; [dasharray] is the [stroke_dasharray]
    entry of the attributes: absent ([None]) or present with a value
    that may itself be Python's [None]. *)
Inductive RectOut : Type :=
| RectEl (insert size : Q * Q) (dasharray : option (option string))
| RectPath (d : list path_cmd) (dasharray : option (option string)).

Section Rectangles.
Variable py_float : string -> option Q.
Variable py_float_str : Q -> string.

(** [shape_renderer.render_rectangle(dwg, rect, scale, stroke_width)]
    (the rectangle loop of [SVGGenerator._add_shapes] is the same code). *)
Definition render_rectangle (rect : RectShape) (scale stroke_width : Q) : result RectOut :=
  let x := Z.min (r_x1 rect) (r_x2 rect) in
  let y := Z.min (r_y1 rect) (r_y2 rect) in
  let width := Z.abs (r_x2 rect - r_x1 rect) in
  let height := Z.abs (r_y2 rect - r_y1 rect) in
  let xs := (inject_Z x * scale)%Q in
  let ys := (inject_Z y * scale)%Q in
  let ws := (inject_Z width * scale)%Q in
  let hs := (inject_Z height * scale)%Q in
  match r_style rect with
  | Some style =>
      match scale_dash_array py_float py_float_str (Some style) stroke_width with
      | Err e => Err e
      | Ok dash =>
          Ok (RectPath [PM (xs, ys); PL (xs + ws, ys)%Q; PL (xs + ws, ys + hs)%Q;
                        PL (xs, ys + hs)%Q; PZ]
                       (Some dash))
      end
  | None => Ok (RectEl (xs, ys) (ws, hs) None)
  end.

(** [shape_renderer._create_rectangle(dwg, x1, y1, x2, y2, stroke_width,
    style)]: the corners are used as given. *)
Definition create_rectangle (x1 y1 x2 y2 stroke_width : Q) (style : option string)
  : result RectOut :=
  let attrs :=
    match style with
    | None | Some EmptyString => Ok None
    | Some s =>
        match scale_dash_array py_float py_float_str (Some s) stroke_width with
        | Err e => Err e
        | Ok None | Ok (Some EmptyString) => Ok None
        | Ok (Some scaled) => Ok (Some (Some scaled))
        end
    end in
  match attrs with
  | Err e => Err e
  | Ok dash => Ok (RectEl (x1, y1) (x2 - x1, y2 - y1)%Q dash)
  end.
End Rectangles.

(** ** The viewBox of [SVGGenerator.generate] *)

(** A record with the four corner keys [x1], [y1], [x2], [y2] (a shape
    of any kind). *)
Record ShapeBox : Type := mkShapeBox { s_x1 : Z; s_y1 : Z; s_x2 : Z; s_y2 : Z }.

(** The running [min_x], [max_x], [min_y], [max_y] of [generate].
    [None] is the initial state, in which the minima are [float('inf')],
    the maxima [float('-inf')] and [has_elements] is [False]: the first
    element sets all four bounds and [has_elements] at once. *)
Definition Bounds : Type := option (Z * Z * Z * Z).

(** [min(m, v0, v1, ...)] and [max(m, v0, v1, ...)], where a missing
    [m] is the initial infinity. *)
Definition py_min_from (m : option Z) (vs : Z * list Z) : Z :=
  match m with
  | None => fold_left Z.min (snd vs) (fst vs)
  | Some m => fold_left Z.min (fst vs :: snd vs) m
  end.

Definition py_max_from (m : option Z) (vs : Z * list Z) : Z :=
  match m with
  | None => fold_left Z.max (snd vs) (fst vs)
  | Some m => fold_left Z.max (fst vs :: snd vs) m
  end.

(** One element: [min_x = min(min_x, *lo_x)], [max_x = max(max_x, *hi_x)],
    [min_y = min(min_y, *lo_y)], [max_y = max(max_y, *hi_y)]. *)
Definition include (b : Bounds) (lo_x hi_x lo_y hi_y : Z * list Z) : Bounds :=
  let sel {A} (f : Z * Z * Z * Z -> A) := option_map f b in
  Some (py_min_from (sel (fun '(m, _, _, _) => m)) lo_x,
        py_max_from (sel (fun '(_, m, _, _) => m)) hi_x,
        py_min_from (sel (fun '(_, _, m, _) => m)) lo_y,
        py_max_from (sel (fun '(_, _, _, m) => m)) hi_y).

Definition symbol_extent : Z := 100.

(** The bounds loops of [generate], in order: wires, symbols, texts,
    flags, then every shape list of the [shapes] dictionary. *)
Definition generate_bounds (wires : list Wire) (symbols : list SymbolInst)
  (texts flags : list (Z * Z)) (shapes : list (string * list ShapeBox)) : Bounds :=
  let b := fold_left (fun b w =>
             include b (x1 w, [x2 w]) (x1 w, [x2 w]) (y1 w, [y2 w]) (y1 w, [y2 w]))
             wires None in
  let b := fold_left (fun b s =>
             include b (sym_x s - symbol_extent, []) (sym_x s + symbol_extent, [])
                       (sym_y s - symbol_extent, []) (sym_y s + symbol_extent, []))
             symbols b in
  let b := fold_left (fun b t =>
             include b (fst t - 50, []) (fst t + 50, []) (snd t - 20, []) (snd t + 20, []))
             texts b in
  let b := fold_left (fun b f =>
             include b (fst f - 20, []) (fst f + 20, []) (snd f - 10, []) (snd f + 10, []))
             flags b in
  fold_left (fun b '(_, l) =>
               fold_left (fun b s =>
                            include b (s_x1 s, [s_x2 s]) (s_x1 s, [s_x2 s])
                                      (s_y1 s, [s_y2 s]) (s_y1 s, [s_y2 s])) l b)
            shapes b.

(** The [(min_x, min_y, width, height)] passed to [dwg.viewbox]. *)
Definition generate_viewbox (wires : list Wire) (symbols : list SymbolInst)
  (texts flags : list (Z * Z)) (shapes : list (string * list ShapeBox)) (scale : Q)
  : Q * Q * Q * Q :=
  let '(min_x, max_x, min_y, max_y) :=
    match generate_bounds wires symbols texts flags shapes with
    | Some b => b
    | None => (-100, 100, -100, 100)
    end in
  let padding := (50 * scale)%Q in
  let min_x' := ((inject_Z min_x - padding) * scale)%Q in
  let max_x' := ((inject_Z max_x + padding) * scale)%Q in
  let min_y' := ((inject_Z min_y - padding) * scale)%Q in
  let max_y' := ((inject_Z max_y + padding) * scale)%Q in
  (min_x', min_y', max_x' - min_x', max_y' - min_y')%Q.


(** The box each element asks the viewBox to cover: the two endpoints
    of a wire or shape, and the margins around a symbol, text or flag
    position used by [generate]. *)
Record Extent : Type := mkExtent { e_lo_x : Z; e_hi_x : Z; e_lo_y : Z; e_hi_y : Z }.

Definition point_extent (x y : Z) : Extent := mkExtent x x y y.

Definition element_extents (wires : list Wire) (symbols : list SymbolInst)
  (texts flags : list (Z * Z)) (shapes : list (string * list ShapeBox)) : list Extent :=
  flat_map (fun w => [point_extent (x1 w) (y1 w); point_extent (x2 w) (y2 w)]) wires
  ++ map (fun s => mkExtent (sym_x s - symbol_extent) (sym_x s + symbol_extent)
                            (sym_y s - symbol_extent) (sym_y s + symbol_extent)) symbols
  ++ map (fun t => mkExtent (fst t - 50) (fst t + 50) (snd t - 20) (snd t + 20)) texts
  ++ map (fun f => mkExtent (fst f - 20) (fst f + 20) (snd f - 10) (snd f + 10)) flags
  ++ flat_map (fun '(_, l) =>
                 flat_map (fun s => [point_extent (s_x1 s) (s_y1 s);
                                     point_extent (s_x2 s) (s_y2 s)]) l) shapes.

Definition is_min (a : Z) (l : list Z) : Prop := In a l /\ forall v, In v l -> a <= v.
Definition is_max (a : Z) (l : list Z) : Prop := In a l /\ forall v, In v l -> v <= a.


(** ** Built-in symbols of [SVGGenerator.generate] *)

(** [str.upper] on the ASCII letters. *)
Definition ascii_upper (c : ascii) : ascii :=
  let n := nat_of_ascii c in
  if (97 <=? n)%nat && (n <=? 122)%nat then ascii_of_nat (n - 32) else c.

Fixpoint str_upper (s : string) : string :=
  match s with
  | EmptyString => EmptyString
  | String c rest => String (ascii_upper c) (str_upper rest)
  end.

Definition str_mem {V : Type} (k : string) (m : list (string * V)) : bool :=
  match str_lookup k m with Some _ => true | None => false end.

Section BuiltinSymbols.
(** The geometry dictionaries of the symbols, and the [GND] entry of
    [BUILTIN_SYMBOLS]. *)
Variable SymDef : Type.
Variable gnd_geometry : SymDef.

Definition BUILTIN_SYMBOLS : list (string * SymDef) := [("GND"%string, gnd_geometry)].

(** [for name, geometry in self.BUILTIN_SYMBOLS.items():
       if name.upper() not in self.symbol_data:
           self.symbol_data[name] = geometry]
    (the key is absent, so the assignment appends it). *)
Definition add_builtin_symbols (symbol_data : list (string * SymDef)) : list (string * SymDef) :=
  fold_left (fun d '(name, geometry) =>
               if str_mem (str_upper name) d then d else d ++ [(name, geometry)])
            BUILTIN_SYMBOLS symbol_data.

(** [self.symbol_data = symbols_data or {}] followed by the loop above.
    The first component is [self.symbol_data], the second the caller's
    [symbols_data] argument after the call: a non-empty dictionary is
    the same object as [self.symbol_data] and sees its updates, while
    [None] and an empty dictionary are replaced by a fresh [{}]. *)
Definition generate_symbol_data (symbols_data : option (list (string * SymDef)))
  : list (string * SymDef) * option (list (string * SymDef)) :=
  match symbols_data with
  | Some ((_ :: _) as d) => let d' := add_builtin_symbols d in (d', Some d')
  | Some [] => (add_builtin_symbols [], Some [])
  | None => (add_builtin_symbols [], None)
  end.
End BuiltinSymbols.

(** ** The text and flag loops of [SVGRenderer] *)

(** [d[k] = d.get(k, 0) + 1] on a dictionary of counters with string
    keys: an existing key is updated in place, a new key is appended. *)
Fixpoint str_incr (k : string) (m : list (string * nat)) : list (string * nat) :=
  match m with
  | [] => [(k, 1%nat)]
  | (k', n) :: rest =>
      if String.eqb k k' then (k', S n) :: rest else (k', n) :: str_incr k rest
  end.

Section RenderLoops.
(** A text dictionary and its optional ['type'] entry. *)
Variable Text : Type.
Variable text_type_of : Text -> option string.

(** What [render_texts] does: the texts handed to [text_renderer.render]
    in order, the [rendered_counts] and [skipped_counts] dictionaries and
    the unknown types it warns about. *)
Record TextsOutcome : Type := mkTextsOutcome {
  rendered : list Text;
  rendered_comment : nat;
  rendered_spice : nat;
  skipped_comment : nat;
  skipped_spice : nat;
  text_warnings : list string
}.

Definition render_texts_step (no_schematic_comment no_spice_directive : bool)
  (o : TextsOutcome) (text : Text) : TextsOutcome :=
  let text_type := get_default (text_type_of text) "comment"%string in
  if negb (String.eqb text_type "comment" || String.eqb text_type "spice") then
    mkTextsOutcome (rendered o) (rendered_comment o) (rendered_spice o)
      (skipped_comment o) (skipped_spice o) (text_warnings o ++ [text_type])
  else if String.eqb text_type "comment" && no_schematic_comment then
    mkTextsOutcome (rendered o) (rendered_comment o) (rendered_spice o)
      (S (skipped_comment o)) (skipped_spice o) (text_warnings o)
  else if String.eqb text_type "spice" && no_spice_directive then
    mkTextsOutcome (rendered o) (rendered_comment o) (rendered_spice o)
      (skipped_comment o) (S (skipped_spice o)) (text_warnings o)
  else if String.eqb text_type "comment" then
    mkTextsOutcome (rendered o ++ [text]) (S (rendered_comment o)) (rendered_spice o)
      (skipped_comment o) (skipped_spice o) (text_warnings o)
  else
    mkTextsOutcome (rendered o ++ [text]) (rendered_comment o) (S (rendered_spice o))
      (skipped_comment o) (skipped_spice o) (text_warnings o).

(** [render_texts]; [ready] is [self.schematic_data and self.dwg], the
    options are the values of [no_schematic_comment] and
    [no_spice_directive]. *)
Definition render_texts (ready : bool) (no_schematic_comment no_spice_directive : bool)
  (texts : list Text) : result TextsOutcome :=
  if negb ready then Err "ValueError"
  else Ok (fold_left (render_texts_step no_schematic_comment no_spice_directive) texts
             (mkTextsOutcome [] 0 0 0 0 [])).

(** A flag dictionary and its optional ['type'] entry. *)
Variable Flag : Type.
Variable flag_type_of : Flag -> option string.

(** The CSS class of the group of a flag type, for the three types that
    have a [render_*] method. *)
Definition flag_class (flag_type : string) : option string :=
  if String.eqb flag_type "gnd" then Some "ground-flag"%string
  else if String.eqb flag_type "net_label" then Some "net-label"%string
  else if String.eqb flag_type "io_pin" then Some "io-pin"%string
  else None.

(** What [render_flags] does: the groups added to the drawing (class and
    the flag drawn into it), the [flag_counts] dictionary and the
    unknown types it warns about. *)
Record FlagsOutcome : Type := mkFlagsOutcome {
  groups : list (string * Flag);
  flag_counts : list (string * nat);
  flag_warnings : list string
}.

Definition render_flags_step (o : FlagsOutcome) (flag : Flag) : FlagsOutcome :=
  let flag_type := get_default (flag_type_of flag) "net_label"%string in
  let counts := str_incr flag_type (flag_counts o) in
  match flag_class flag_type with
  | Some c => mkFlagsOutcome (groups o ++ [(c, flag)]) counts (flag_warnings o)
  | None => mkFlagsOutcome (groups o) counts (flag_warnings o ++ [flag_type])
  end.

Definition render_flags (ready : bool) (flags : list Flag) : result FlagsOutcome :=
  if negb ready then Err "ValueError"
  else Ok (fold_left render_flags_step flags
             (mkFlagsOutcome [] [("gnd"%string, 0%nat); ("net_label"%string, 0%nat);
                                 ("io_pin"%string, 0%nat)] [])).
End RenderLoops.

(** ** [SVGRenderer._apply_schematic_defaults] *)

Section SchematicDefaults.
(** The values of the schematic dictionary, among them an empty list and
    an empty dictionary. *)
Variable V : Type.
Variable empty_list empty_dict : V.

Definition default_collections : list (string * V) :=
  [("wires"%string, empty_list); ("symbols"%string, empty_dict);
   ("texts"%string, empty_dict); ("shapes"%string, empty_dict);
   ("flags"%string, empty_list)].

(** [result = schematic_data.copy()], then [result[key] = default_value]
    for every missing key, in order (a missing key is appended). *)
Definition apply_schematic_defaults (schematic_data : list (string * V)) : list (string * V) :=
  fold_left (fun result '(key, default_value) =>
               if str_mem key result then result else result ++ [(key, default_value)])
            default_collections schematic_data.
End SchematicDefaults.

(** ** [_add_symbol_text] of the generator's symbol renderer *)

(** [SVGGenerator.size_multipliers], the table the generator passes to its
    renderers. *)
Definition generator_size_multipliers : list (Z * Q) :=
  [(0, 5#8); (1, 1#1); (2, 3#2); (3, 2#1); (4, 5#2); (5, 7#2); (6, 5#1); (7, 7#1)].

(** The text group added to the symbol group: [Some (cx, cy)] is the
    transform [rotate(90, cx, cy)], and the runs are the lines. *)
Record SymTextOut : Type := mkSymTextOut {
  st_rotation : option (Q * Q);
  st_runs : list TextRun
}.

(** [_add_symbol_text(dwg, group, text_data, scale, font_size,
    size_multipliers)]; the debug print reads [text_data['text']] first,
    and [size_multipliers[size_multiplier]] indexes the table directly. *)
Definition add_symbol_text (text_data : TextRec) (scale font_size : Q)
  (size_multipliers : list (Z * Q)) : result SymTextOut :=
  match t_text text_data with
  | None => Err "KeyError"
  | Some _ =>
      let x := get_default (t_x text_data) 0%Q in
      let y := get_default (t_y text_data) 0%Q in
      let content := get_default (t_text text_data) EmptyString in
      let justification0 := get_default (t_justification text_data) "Left"%string in
      let size_multiplier := get_default (t_size_multiplier text_data) 2 in
      match zassoc size_multiplier size_multipliers with
      | None => Err "KeyError"
      | Some m =>
          let fs := (font_size * m)%Q in
          let vertical := existsb (String.eqb justification0) ["VTop"; "VBottom"]%string in
          let justification :=
            if vertical then
              (if String.eqb justification0 "VTop" then "Top" else "Bottom")%string
            else justification0 in
          let runs := create_multiline_text content (x * scale)
                        (y * scale + y_offset_of justification fs) fs
                        (text_anchor_of justification) in
          Ok (mkSymTextOut (if vertical then Some ((x * scale)%Q, (y * scale)%Q) else None)
                           runs)
      end
  end.

(** ** The instance name of [SVGGenerator._add_symbols] *)

(** An entry of the ['texts'] list of a symbol definition, as the
    instance-name code reads it. *)
Record SymTextDef : Type := mkSymTextDef {
  d_property_id : option Z;
  d_x : Z;
  d_y : Z;
  d_justification : option string;
  d_size_multiplier : option Q
}.

(** The first entry with [text.get('property_id') == 0] (the loop
    [break]s after it). *)
Definition find_instance_text (texts : list SymTextDef) : option SymTextDef :=
  find (fun d => match d_property_id d with Some p => p =? 0 | None => false end) texts.

(** The justification dictionary indexed for a mirrored symbol; [None]
    is its [KeyError]. *)
Definition mirror_justification (j : string) : option string :=
  if String.eqb j "Left" then Some "Right"%string
  else if String.eqb j "Right" then Some "Left"%string
  else if String.eqb j "Center" then Some "Center"%string
  else if String.eqb j "Top" then Some "Top"%string
  else if String.eqb j "Bottom" then Some "Bottom"%string
  else None.

(** The instance-name text of one symbol: [rotation_type] and [angle]
    are the values parsed at the top of the loop, [(sx, sy)] the symbol
    position; [Ok None] when nothing is drawn. *)
Definition instance_name_text (sx sy : Z) (rotation_type : ascii) (angle : Z)
  (instance_name : string) (no_text : bool) (texts : list SymTextDef)
  (scale font_size : Q) : result (option TextRun) :=
  match instance_name with
  | EmptyString => Ok None
  | _ =>
      if no_text then Ok None else
      match find_instance_text texts with
      | None => Ok None
      | Some text =>
          let size_multiplier := get_default (d_size_multiplier text) (3#2) in
          let fs := (font_size * size_multiplier)%Q in
          let justification0 := get_default (d_justification text) "Left"%string in
          let justification :=
            if Ascii.eqb rotation_type "M" then mirror_justification justification0
            else Some justification0 in
          match justification with
          | None => Err "KeyError"
          | Some justification =>
              let '(text_x, text_y) := transform_terminal rotation_type angle (d_x text, d_y text) in
              Ok (Some (mkTextRun instance_name
                          (inject_Z (sx + text_x) * scale)%Q
                          (inject_Z (sy + text_y) * scale + y_offset_of justification fs)%Q
                          fs (text_anchor_of justification)))
          end
      end
  end.

(** * Properties *)

(** ** Rotation and mirroring *)

(** C1: for kind R or M and angle 0, 90, 180 or 270, the transform of
    symbol terminal points negates x first when the kind is M and then
    applies exactly the fixed quarter-turn table. *)
Theorem terminal_transform_matches_table :
  forall (k : rot_kind) (q : quarter) (p : Z * Z),
    transform_terminal (kind_char k) (quarter_deg q) p = spec_rotate_mirror Z.opp k q p.
Proof.
  intros k q [x y]; destruct k, q; reflexivity.
Qed.

Lemma parse_rotation_code (k : rot_kind) (q : quarter) :
  parse_rotation (rotation_code k q) = Some (kind_char k, quarter_deg q).
Proof. destruct k, q; reflexivity. Qed.

(** C3 (counterexample): for [M90] the group transform of [render_symbol]
    sends the local point (1, 0) to (0, 1), while translating the table's
    image of that point gives (0, -1). *)
Lemma group_transform_table_counterexample :
  ~ (forall (k : rot_kind) (q : quarter) (x y : Z) (scale : Q) (p : Q * Q),
        transform_gives (render_symbol_transform x y scale (rotation_code k q)) p
          (add_pt (inject_Z x * scale, inject_Z y * scale)%Q
                  (spec_rotate_mirror Qopp k q p))).
Proof.
  intros H.
  specialize (H KindM Q90 0%Z 0%Z 1%Q (1, 0)%Q).
  vm_compute in H. destruct H as [_ H]. discriminate H.
Qed.

(** C3 (code behaviour): the group transform of [render_symbol]
    (translate, mirror, rotate) agrees with translating the table for kind
    R and for kind M at 0 and 180 degrees, but for [M90] it gives the
    table's [M270] image and for [M270] the table's [M90] image, against
    the table it should reproduce; the group transform of
    [SymbolRenderer.set_transformation] (translate, rotate, mirror) agrees
    with translating the table for all eight codes. *)
Theorem group_transform_vs_table :
  forall (k : rot_kind) (q : quarter) (x y : Z) (scale : Q) (t p : Q * Q),
    transform_gives (render_symbol_transform x y scale (rotation_code k q)) p
      (add_pt (inject_Z x * scale, inject_Z y * scale)%Q
              (spec_rotate_mirror Qopp k (generator_quarter k q) p))
    /\ transform_gives (set_transformation (rotation_code k q) t) p
         (add_pt t (spec_rotate_mirror Qopp k q p)).
Proof.
  intros k q x y scale [tx ty] [px py].
  unfold transform_gives, render_symbol_transform, set_transformation.
  rewrite !parse_rotation_code.
  destruct k, q; cbn -[Qplus Qmult Qopp Qminus];
    split; split; simpl; ring.
Qed.

(** ** Wire-end tallies and direction sets *)

Lemma pt_eqb_true (a b : Z * Z) : pt_eqb a b = true <-> a = b.
Proof. unfold pt_eqb; destruct (pt_eq_dec a b); split; congruence. Qed.

Lemma pt_eqb_sym (a b : Z * Z) : pt_eqb a b = pt_eqb b a.
Proof.
  unfold pt_eqb; destruct (pt_eq_dec a b), (pt_eq_dec b a); congruence.
Qed.

Lemma lookup_bump (p q : Z * Z) (m : list ((Z * Z) * nat)) :
  lookup_count q (bump p m) = (lookup_count q m + if pt_eqb q p then 1 else 0)%nat.
Proof.
  induction m as [|[r n] rest IH]; simpl.
  - destruct (pt_eqb q p); reflexivity.
  - destruct (pt_eqb p r) eqn:Hpr; simpl.
    + apply pt_eqb_true in Hpr; subst r.
      destruct (pt_eqb q p); lia.
    + rewrite IH. destruct (pt_eqb q r) eqn:Hqr; [|reflexivity].
      apply pt_eqb_true in Hqr; subst r.
      rewrite pt_eqb_sym, Hpr. lia.
Qed.

Ltac in_or_solve :=
  simpl; split; intros;
  repeat match goal with H : _ \/ _ |- _ => destruct H end;
  subst; auto; try contradiction.

Lemma keys_bump (p : Z * Z) (m : list ((Z * Z) * nat)) :
  NoDup (map fst m) -> NoDup (map fst (bump p m)) /\ (forall q, In q (map fst (bump p m)) <-> q = p \/ In q (map fst m)).
Proof.
  induction m as [|[r n] rest IH]; simpl; intros Hnd.
  - split; [constructor; [intros []|constructor]|]. intros q; in_or_solve.
  - inversion Hnd as [|? ? Hr Hrest]; subst.
    destruct (pt_eqb p r) eqn:Hpr; simpl.
    + apply pt_eqb_true in Hpr; subst r. split; [assumption|]. intros q; in_or_solve.
    + destruct (IH Hrest) as [Hnd' Hin']. split.
      * constructor; [|assumption]. rewrite Hin'. intros [E|E]; [|contradiction].
        subst r. rewrite (proj2 (pt_eqb_true p p) eq_refl) in Hpr. discriminate.
      * intros q. rewrite Hin'. in_or_solve.
Qed.

Lemma lookup_In (p : Z * Z) (n : nat) (m : list ((Z * Z) * nat)) :
  NoDup (map fst m) -> In (p, n) m -> lookup_count p m = n.
Proof.
  induction m as [|[r k] rest IH]; simpl; intros Hnd Hin; [contradiction|].
  inversion Hnd as [|? ? Hr Hrest]; subst.
  destruct Hin as [E|Hin].
  - injection E as -> ->. rewrite (proj2 (pt_eqb_true p p) eq_refl). reflexivity.
  - destruct (pt_eqb p r) eqn:Hpr.
    + apply pt_eqb_true in Hpr; subst r. exfalso; apply Hr.
      apply (in_map fst) in Hin. exact Hin.
    + apply IH; assumption.
Qed.

Lemma lookup_pos_key (p : Z * Z) (m : list ((Z * Z) * nat)) :
  (0 < lookup_count p m)%nat -> exists n, In (p, n) m.
Proof.
  induction m as [|[r k] rest IH]; simpl; intros H; [lia|].
  destruct (pt_eqb p r) eqn:Hpr.
  - apply pt_eqb_true in Hpr; subst r. exists k; left; reflexivity.
  - destruct (IH H) as [n Hn]. exists n; right; exact Hn.
Qed.

Lemma tally_fold (wires : list Wire) (m : list ((Z * Z) * nat)) :
  NoDup (map fst m) ->
  NoDup (map fst (fold_left (fun m w => bump (x2 w, y2 w) (bump (x1 w, y1 w) m)) wires m))
  /\ forall p,
       lookup_count p (fold_left (fun m w => bump (x2 w, y2 w) (bump (x1 w, y1 w) m)) wires m)
       = (lookup_count p m + ends_at p wires)%nat.
Proof.
  revert m; induction wires as [|w ws IH]; intros m Hnd; simpl.
  - split; [assumption|]. intros p; unfold ends_at; simpl; lia.
  - destruct (keys_bump (x1 w, y1 w) m Hnd) as [Hnd1 _].
    destruct (keys_bump (x2 w, y2 w) _ Hnd1) as [Hnd2 _].
    destruct (IH _ Hnd2) as [HndR HR]. split; [exact HndR|].
    intros p. rewrite HR, !lookup_bump.
    unfold ends_at; simpl.
    destruct (pt_eqb p (x1 w, y1 w)), (pt_eqb p (x2 w, y2 w)); simpl; lia.
Qed.

Lemma tally_spec (wires : list Wire) :
  NoDup (map fst (tally wires)) /\ forall p, lookup_count p (tally wires) = ends_at p wires.
Proof.
  unfold tally. destruct (tally_fold wires [] (NoDup_nil _)) as [H1 H2].
  split; [exact H1|]. intros p; rewrite H2; reflexivity.
Qed.

Section DirectionFacts.
Variable unit_dir : Z -> Z -> Z * Z.

Definition direction_candidates (point : Z * Z) (wires : list Wire) : list (Z * Z) :=
  map (fun v => unit_dir (fst v) (snd v))
      (filter (fun v => negb ((fst v =? 0) && (snd v =? 0)))
              (incident_vectors point wires)).

Lemma direction_step_spec (point : Z * Z) (acc : list (Z * Z)) (w : Wire) :
  NoDup acc ->
  NoDup (direction_step unit_dir point acc w)
  /\ forall d, In d (direction_step unit_dir point acc w) <->
               In d acc \/ In d (direction_candidates point [w]).
Proof.
  intros Hnd.
  assert (Hself : forall a, pt_eqb a a = true) by (intros a; apply pt_eqb_true; reflexivity).
  assert (Hadd : forall dx dy,
            NoDup (if (dx =? 0) && (dy =? 0) then acc
                   else if existsb (pt_eqb (unit_dir dx dy)) acc then acc
                   else acc ++ [unit_dir dx dy])
            /\ forall d, In d (if (dx =? 0) && (dy =? 0) then acc
                               else if existsb (pt_eqb (unit_dir dx dy)) acc then acc
                               else acc ++ [unit_dir dx dy]) <->
                 In d acc \/ In d (if (dx =? 0) && (dy =? 0) then [] else [unit_dir dx dy])).
  { intros dx dy.
    destruct ((dx =? 0) && (dy =? 0)); [split; [assumption|]; simpl; tauto|].
    destruct (existsb (pt_eqb (unit_dir dx dy)) acc) eqn:Hex.
    - split; [assumption|]. intros d; simpl. split; [tauto|].
      intros [H|[H|[]]]; [exact H|]. subst d.
      apply existsb_exists in Hex. destruct Hex as [e [He Heq]].
      apply pt_eqb_true in Heq. subst e. exact He.
    - split.
      + apply NoDup_app; [assumption|constructor; [intros []|constructor]|].
        intros e He [E|[]]; subst e.
        assert (existsb (pt_eqb (unit_dir dx dy)) acc = true) as C.
        { apply existsb_exists. exists (unit_dir dx dy); split; [exact He|].
          apply Hself. }
        congruence.
      + intros d; rewrite in_app_iff; simpl; tauto. }
  unfold direction_step, direction_candidates, incident_vectors; simpl flat_map.
  rewrite app_nil_r.
  destruct (pt_eqb (x1 w, y1 w) point) eqn:H1.
  - apply pt_eqb_true in H1. subst point. simpl fst; simpl snd.
    destruct (Hadd (x2 w - x1 w) (y2 w - y1 w)) as [Hn Hi]. split; [exact Hn|].
    intros d. rewrite Hi.
    destruct (pt_eqb (x2 w, y2 w) (x1 w, y1 w)) eqn:H2.
    + apply pt_eqb_true in H2. injection H2 as F1 F2. rewrite F1, F2, !Z.sub_diag.
      simpl. tauto.
    + simpl. destruct ((x2 w - x1 w =? 0) && (y2 w - y1 w =? 0)); simpl; tauto.
  - destruct (pt_eqb (x2 w, y2 w) point) eqn:H2.
    + apply pt_eqb_true in H2. subst point. simpl fst; simpl snd.
      destruct (Hadd (x1 w - x2 w) (y1 w - y2 w)) as [Hn Hi]. split; [exact Hn|].
      intros d. rewrite Hi. simpl.
      destruct ((x1 w - x2 w =? 0) && (y1 w - y2 w =? 0)); simpl; tauto.
    + split; [assumption|]. intros d; simpl; tauto.
Qed.

Lemma direction_candidates_cons (point : Z * Z) (w : Wire) (ws : list Wire) :
  direction_candidates point (w :: ws)
  = direction_candidates point [w] ++ direction_candidates point ws.
Proof.
  unfold direction_candidates, incident_vectors. simpl flat_map.
  rewrite app_nil_r, filter_app, map_app. reflexivity.
Qed.

Lemma wire_directions_fold (point : Z * Z) (wires : list Wire) (acc : list (Z * Z)) :
  NoDup acc ->
  NoDup (fold_left (direction_step unit_dir point) wires acc)
  /\ forall d, In d (fold_left (direction_step unit_dir point) wires acc) <->
               In d acc \/ In d (direction_candidates point wires).
Proof.
  revert acc; induction wires as [|w ws IH]; intros acc Hnd; simpl.
  - split; [assumption|]. intros d; unfold direction_candidates; simpl; tauto.
  - destruct (direction_step_spec point acc w Hnd) as [Hn Hi].
    destruct (IH _ Hn) as [HnR HiR]. split; [exact HnR|].
    intros d. rewrite HiR, Hi, (direction_candidates_cons point w ws), in_app_iff. tauto.
Qed.

Lemma wire_directions_count (point : Z * Z) (wires : list Wire) :
  length (wire_directions unit_dir point wires) = distinct_directions unit_dir point wires.
Proof.
  destruct (wire_directions_fold point wires [] (NoDup_nil _)) as [Hnd Hin].
  unfold distinct_directions. fold (direction_candidates point wires).
  unfold wire_directions.
  apply Nat.le_antisymm; apply NoDup_incl_length.
  - exact Hnd.
  - intros d Hd. apply nodup_In. apply Hin in Hd. destruct Hd as [[]|Hd]; exact Hd.
  - apply NoDup_nodup.
  - intros d Hd. apply nodup_In in Hd. apply Hin. right; exact Hd.
Qed.
End DirectionFacts.

Lemma nodup_keys_filter (f : (Z * Z) * nat -> bool) (m : list ((Z * Z) * nat)) :
  NoDup (map fst m) -> NoDup (map fst (filter f m)).
Proof.
  induction m as [|[q n] rest IH]; simpl; intros Hnd; [constructor|].
  inversion Hnd as [|? ? Hq Hrest]; subst.
  destruct (f (q, n)); simpl; [|auto].
  constructor; [|auto].
  intros Hin; apply Hq. apply in_map_iff in Hin. destruct Hin as [[r k] [E Hr]].
  simpl in E; subst r. apply filter_In in Hr. destruct Hr as [Hr _].
  apply (in_map fst) in Hr. exact Hr.
Qed.

Lemma existsb_pt_false (p : Z * Z) (l : list (Z * Z)) :
  existsb (pt_eqb p) l = false <-> ~ In p l.
Proof.
  split.
  - intros H Hin. assert (existsb (pt_eqb p) l = true) as C; [|congruence].
    apply existsb_exists. exists p; split; [exact Hin|apply pt_eqb_true; reflexivity].
  - intros H. destruct (existsb (pt_eqb p) l) eqn:E; [|reflexivity].
    apply existsb_exists in E. destruct E as [q [Hq Heq]]. apply pt_eqb_true in Heq.
    subst q; contradiction.
Qed.

(** C2 (amended): the T-junction computation of the generator never
    raises and returns, without repetition, exactly the endpoints where at
    least 3 wire ends meet, the incident wires show at least 3 distinct
    unit directions seen from that point, and no terminal point computed
    by [_get_symbol_terminals] (unrotated base offsets) lies. This holds
    for any rounding of the unit directions. *)
Theorem find_t_junctions_characterised
  (unit_dir : Z -> Z -> Z * Z) (wires : list Wire) (symbols : list SymbolInst) :
  NoDup (find_t_junctions unit_dir wires symbols)
  /\ forall p, In p (find_t_junctions unit_dir wires symbols) <->
       spec_t_junction unit_dir p wires /\ ~ In p (generator_symbol_terminals symbols).
Proof.
  unfold find_t_junctions.
  destruct (tally_spec wires) as [Hnd Hlk].
  split; [apply nodup_keys_filter; exact Hnd|].
  intros p. rewrite in_map_iff. unfold spec_t_junction.
  rewrite <- (wire_directions_count unit_dir p wires), <- (Hlk p).
  split.
  - intros [[q n] [E Hin]]. simpl in E; subst q.
    apply filter_In in Hin. destruct Hin as [Hin Hf].
    rewrite (lookup_In p n _ Hnd Hin).
    apply andb_prop in Hf. destruct Hf as [Hf H3]. apply andb_prop in Hf. destruct Hf as [Hn Ht].
    apply Nat.leb_le in Hn, H3. apply negb_true_iff, existsb_pt_false in Ht.
    auto.
  - intros [[Hn H3] Ht].
    destruct (lookup_pos_key p (tally wires)) as [n Hin]; [lia|].
    exists (p, n); split; [reflexivity|].
    apply filter_In; split; [exact Hin|].
    rewrite (lookup_In p n _ Hnd Hin) in Hn.
    apply existsb_pt_false in Ht. rewrite Ht.
    apply Nat.leb_le in Hn, H3. rewrite Hn, H3. reflexivity.
Qed.

(** C2 (counterexample): the count-only computation of
    [renderers/svg_renderer.py] returns the origin where three wire ends
    meet in only two directions; the generator's computation drops the
    origin where three wires meet in three directions, because an NMOS
    terminal lies there. *)
Lemma t_junction_counterexample :
  renderer_find_t_junctions collinear_wires = [(0, 0)]
  /\ ~ spec_t_junction exact_dir (0, 0) collinear_wires
  /\ find_t_junctions exact_dir tee_wires [nmos_at_origin] = []
  /\ spec_t_junction exact_dir (0, 0) tee_wires.
Proof.
  split; [reflexivity|]. split.
  - unfold spec_t_junction. vm_compute. lia.
  - split; [reflexivity|]. unfold spec_t_junction. vm_compute. lia.
Qed.

(** ** Window text placement *)

(** C4 (counterexample): with an integer-keyed override for property 0
    but no window in the definition, [render_component_name] renders
    nothing, although the override is present; with no window 0 in the
    definition and no override it renders nothing either, instead of the
    built-in default placement. *)
Lemma window_resolution_counterexample :
  render_component_name true (mkSymbolDef (Some []) []) false
    [(KInt 0, sample_window)] false "R1" = Ok None
  /\ render_component_name true (mkSymbolDef (Some [("3"%string, sample_window)]) []) false
       [] false "R1" = Ok None
  /\ spec_window 0 "0" [] [(KInt 0, sample_window)] = sample_window
  /\ spec_window 0 "0" [("3"%string, sample_window)] [] = default_window 0.
Proof. repeat split. Qed.

(** C4 (amended): for property 0 or 3 with non-empty content and emission
    enabled, [SymbolRenderer] raises [ValueError] when no symbol was begun
    or the symbol definition is empty; otherwise it renders the text only
    when the definition's windows have an entry for the property, placed
    at the instance's override under the integer key, else under the
    string key, else at the definition's window, and without a definition
    window nothing is rendered. The generator's [render_symbol] ignores
    overrides, uses the definition's first window for the property (a
    [KeyError] when it has no size multiplier), and falls back to
    (0, -16, Center, 2) for the instance name only. *)
Theorem window_resolution
  (started : bool) (symbol_def : SymbolDef) (window_overrides : list (wkey * Window))
  (gen_windows : list (Z * Window)) (m : bool) (name value : string)
  (Hname : name <> EmptyString) (Hvalue : value <> EmptyString) :
  render_component_name started symbol_def false window_overrides m name
  = (if negb started || symbol_def_empty symbol_def then Err "ValueError"%string
     else Ok (option_map
                (fun _ => let w := spec_window 0 "0" (get_windows symbol_def) window_overrides in
                          mkTextData (win_x w) (win_y w) name (win_justification w)
                            (match win_size_multiplier w with Some k => k | None => 0 end) m)
                (str_lookup "0" (get_windows symbol_def))))
  /\ render_component_value started symbol_def false window_overrides m value
  = (if negb started || symbol_def_empty symbol_def then Err "ValueError"%string
     else Ok (option_map
                (fun _ => let w := spec_window 3 "3" (get_windows symbol_def) window_overrides in
                          mkTextData (win_x w) (win_y w) value (win_justification w)
                            (match win_size_multiplier w with Some k => k | None => 0 end) m)
                (str_lookup "3" (get_windows symbol_def))))
  /\ generator_instance_name_text false gen_windows name
     = result_map Some (window_text (match find_window 0 gen_windows with
                                     | Some w => w
                                     | None => default_window 0
                                     end) name)
  /\ generator_value_text false gen_windows value
     = match find_window 3 gen_windows with
       | Some w => result_map Some (window_text w value)
       | None => Ok None
       end.
Proof.
  apply String.eqb_neq in Hname, Hvalue.
  unfold render_component_name, render_component_value, generator_instance_name_text,
    generator_value_text.
  rewrite Hname, Hvalue. simpl orb.
  split; [|split; [|split]].
  - destruct started; [|reflexivity]. destruct (symbol_def_empty symbol_def) eqn:He;
      [reflexivity|].
    unfold render_window_property, spec_window. rewrite He. simpl negb. cbv iota.
    destruct (get_windows symbol_def) as [|e ws]; [reflexivity|].
    destruct (str_lookup "0" (e :: ws)) eqn:Hw; [|reflexivity].
    simpl py_int. cbv iota beta.
    destruct (key_lookup (KInt 0) window_overrides); [reflexivity|].
    destruct (key_lookup (KStr "0") window_overrides); reflexivity.
  - destruct started; [|reflexivity]. destruct (symbol_def_empty symbol_def) eqn:He;
      [reflexivity|].
    unfold render_window_property, spec_window. rewrite He. simpl negb. cbv iota.
    destruct (get_windows symbol_def) as [|e ws]; [reflexivity|].
    destruct (str_lookup "3" (e :: ws)) eqn:Hw; [|reflexivity].
    simpl py_int. cbv iota beta.
    destruct (key_lookup (KInt 3) window_overrides); [reflexivity|].
    destruct (key_lookup (KStr "3") window_overrides); reflexivity.
  - destruct (find_window 0 gen_windows); reflexivity.
  - reflexivity.
Qed.

Lemma window_resolution_witness :
  "R1"%string <> EmptyString /\ "10k"%string <> EmptyString
  /\ render_component_name true (mkSymbolDef (Some [("0"%string, default_window 0)]) [])
       false [(KInt 0, sample_window)] false "R1"
     = Ok (Some (mkTextData 5 5 "R1" "Right" 3 false)).
Proof.
  split; [discriminate|]. split; [discriminate|].
  destruct (window_resolution true (mkSymbolDef (Some [("0"%string, default_window 0)]) [])
              [(KInt 0, sample_window)] [] false "R1" "10k"
              ltac:(discriminate) ltac:(discriminate)) as [H _].
  rewrite H. reflexivity.
Defined.

(** ** Arc flags *)

Lemma qltb_iff (a b : Q) : qltb a b = true <-> (a < b)%Q.
Proof. unfold qltb, Qlt. apply Z.ltb_lt. Qed.

Lemma render_arc_grid_ok_true : render_arc_grid_ok = true.
Proof. vm_compute. reflexivity. Qed.

Lemma in_degree_grid (a : Z) : 0 <= a < 360 -> In a degree_grid.
Proof.
  intros Ha. unfold degree_grid. apply in_map_iff. exists (Z.to_nat a). split.
  - apply Z2Nat.id; lia.
  - apply in_seq. lia.
Qed.

Lemma render_arc_flags_degrees (a b : Z) :
  0 <= a < 360 -> 0 <= b < 360 -> render_arc_flags (deg a) (deg b) = degree_arc_flags a b.
Proof.
  intros Ha Hb. pose proof render_arc_grid_ok_true as H. unfold render_arc_grid_ok in H.
  rewrite forallb_forall in H. specialize (H a (in_degree_grid a Ha)).
  rewrite forallb_forall in H. specialize (H b (in_degree_grid b Hb)).
  destruct (render_arc_flags (deg a) (deg b)) as [l w], (degree_arc_flags a b) as [l' w'].
  apply andb_prop in H. destruct H as [H1 H2]. apply Z.eqb_eq in H1, H2. subst. reflexivity.
Qed.

(** C5 (counterexample): the arc emitted by [render_arc] for an arc from
    90 to 0 degrees has sweep flag 0; from 270 to 0 degrees it has
    large-arc flag 1 although [(0 - 270) mod 360 = 90]; from 30 to 210
    degrees it has large-arc flag 1 although [(210 - 30) mod 360 = 180]. *)
Lemma arc_flags_counterexample :
  snd (render_arc_flags (deg 90) (deg 0)) = 0
  /\ fst (render_arc_flags (deg 270) (deg 0)) = 1
  /\ py_mod360 (0 - 270) == 90
  /\ fst (render_arc_flags (deg 30) (deg 210)) = 1
  /\ py_mod360 (210 - 30) == 180.
Proof. repeat split; vm_compute; reflexivity. Qed.

(** C5 (amended): [_create_arc] sets large-arc exactly when
    [(end - start) mod 360 > 180] and always sets sweep, for every pair of
    angles; [render_arc], computing in floating point on radians, sets
    for whole-degree angles in [0, 360) large-arc when
    [|end - start| > 180], not when [|end - start| < 180], and for a half
    turn as the rounding decides ([half_turn_large]); it sets sweep
    exactly when [end > start]. *)
Theorem arc_flags_characterised (start_angle end_angle : Q) (a b : Z)
  (Ha : 0 <= a < 360) (Hb : 0 <= b < 360) :
  (fst (create_arc_flags start_angle end_angle) = 1
     <-> (180 < py_mod360 (end_angle - start_angle))%Q)
  /\ snd (create_arc_flags start_angle end_angle) = 1
  /\ (fst (render_arc_flags (deg a) (deg b)) = 1
        <-> 180 < Z.abs (b - a)
            \/ (Z.abs (b - a) = 180 /\ In (Z.min a b) half_turn_large))
  /\ (snd (render_arc_flags (deg a) (deg b)) = 1 <-> a < b).
Proof.
  rewrite (render_arc_flags_degrees a b Ha Hb).
  unfold create_arc_flags, degree_arc_flags; cbn [fst snd].
  split; [|split; [reflexivity|split]].
  - destruct (qltb 180 (py_mod360 (end_angle - start_angle))) eqn:E.
    + apply qltb_iff in E. split; [intros _; exact E|reflexivity].
    + split; [discriminate|]. intros H. apply qltb_iff in H. congruence.
  - destruct (Z.ltb_spec 180 (Z.abs (b - a))) as [Hgt|Hle];
      [split; [intros _; left; lia|reflexivity]|].
    destruct (Z.ltb_spec (Z.abs (b - a)) 180) as [Hlt|Hge].
    + split; [discriminate|]. intros [H|[H _]]; lia.
    + destruct (existsb (Z.eqb (Z.min a b)) half_turn_large) eqn:E.
      * split; [intros _; right; split; [lia|]|reflexivity].
        apply existsb_exists in E. destruct E as [x [Hx Ex]]. apply Z.eqb_eq in Ex.
        rewrite Ex; exact Hx.
      * split; [discriminate|]. intros [H|[_ H]]; [lia|].
        assert (existsb (Z.eqb (Z.min a b)) half_turn_large = true) as C; [|congruence].
        apply existsb_exists. exists (Z.min a b). split; [exact H|apply Z.eqb_refl].
  - destruct (Z.ltb_spec a b); split; intros; lia.
Qed.

Lemma arc_flags_characterised_witness :
  (0 <= 30 < 360) /\ (0 <= 210 < 360)
  /\ fst (render_arc_flags (deg 30) (deg 210)) = 1.
Proof.
  split; [lia|]. split; [lia|].
  destruct (arc_flags_characterised 0 0 30 210 ltac:(lia) ltac:(lia)) as [_ [_ [H _]]].
  apply H. right. split; [reflexivity|]. simpl. tauto.
Defined.

(** ** Circles *)

Lemma half_abs_eq_iff_close (a b : Z) :
  Qeq_bool (inject_Z (Z.abs a) / 2) (inject_Z (Z.abs b) / 2)
  = qltb (Qabs (inject_Z (Z.abs a) / 2 - inject_Z (Z.abs b) / 2)) (1 # 100).
Proof.
  unfold Qeq_bool, qltb, Qabs, Qminus, Qplus, Qopp, Qdiv, Qmult, Qinv, inject_Z; simpl.
  match goal with
  | |- (?x =? ?y) = (?u <? ?v) => destruct (Z.eqb_spec x y), (Z.ltb_spec u v)
  end; try reflexivity; lia.
Qed.

(** C6: [_create_circle] emits a circle of radius rx centred at
    ((x1+x2)/2, (y1+y2)/2) exactly when |rx - ry| < 0.01 and an ellipse
    with radii (rx, ry) otherwise; [render_circle], whose test is
    [rx == ry], makes the same choice on the integer coordinates of parsed
    records and emits the same primitive scaled. *)
Theorem circle_or_ellipse (x1 y1 x2 y2 : Q) (a1 b1 a2 b2 : Z) (scale : Q) :
  create_circle x1 y1 x2 y2 = spec_circle x1 y1 x2 y2
  /\ render_circle a1 b1 a2 b2 scale
     = scale_primitive scale (spec_circle (inject_Z a1) (inject_Z b1) (inject_Z a2) (inject_Z b2)).
Proof.
  split; [reflexivity|].
  unfold render_circle, spec_circle.
  assert (Hx : Qabs (inject_Z a2 - inject_Z a1) = inject_Z (Z.abs (a2 - a1))).
  { unfold Qabs, Qminus, Qplus, Qopp, inject_Z; simpl. rewrite !Z.mul_1_r. reflexivity. }
  assert (Hy : Qabs (inject_Z b2 - inject_Z b1) = inject_Z (Z.abs (b2 - b1))).
  { unfold Qabs, Qminus, Qplus, Qopp, inject_Z; simpl. rewrite !Z.mul_1_r. reflexivity. }
  rewrite Hx, Hy.
  rewrite <- (half_abs_eq_iff_close (a2 - a1) (b2 - b1)).
  destruct (Qeq_bool _ _); simpl; f_equal; rewrite inject_Z_plus; reflexivity.
Qed.

Lemma scale_tokens_ok (py_float : string -> option Q) (py_str : Q -> string)
  (w : Q) (tokens : list string) (values : list Q) :
  map py_float tokens = map Some values ->
  scale_tokens py_float py_str w tokens = Ok (map (fun v => py_str (v * w)%Q) values).
Proof.
  revert values; induction tokens as [|t rest IH]; intros [|v vs] H; simpl in *;
    try discriminate; try reflexivity.
  injection H as Ht Hrest. rewrite Ht, (IH vs Hrest). reflexivity.
Qed.

Lemma scale_tokens_err (py_float : string -> option Q) (py_str : Q -> string)
  (w : Q) (tokens : list string) (t : string) :
  In t tokens -> py_float t = None ->
  scale_tokens py_float py_str w tokens = Err "ValueError"%string.
Proof.
  induction tokens as [|t0 rest IH]; intros Hin Ht; [destruct Hin|].
  simpl. destruct (py_float t0) as [v|] eqn:E; [|reflexivity].
  destruct Hin as [<-|Hin]; [congruence|].
  rewrite (IH Hin Ht). reflexivity.
Qed.

(** C7 (counterexample): a pattern with a non-numeric token makes
    [_scale_dash_array] raise Python's [ValueError] from [float()]; no
    [InvalidStyleError] is raised. *)
Lemma dash_array_error_counterexample :
  scale_dash_array decimal_float decimal_str (Some "4,abc"%string) 2
    = Err "ValueError"%string
  /\ "ValueError"%string <> "InvalidStyleError"%string.
Proof. split; [vm_compute; reflexivity | discriminate]. Qed.

(** C7 (amended): for any [float] and [str], [_scale_dash_array] returns
    [None] (no dash attribute) for an absent or empty pattern at every
    stroke width; for a non-empty pattern whose comma-separated tokens all
    parse, it returns the comma-join of [str(float(token) * stroke_width)];
    and when some token does not parse it raises [ValueError] and returns
    nothing. *)
Theorem dash_array_scaling (py_float : string -> option Q) (py_str : Q -> string) (w : Q) :
  scale_dash_array py_float py_str None w = Ok None
  /\ scale_dash_array py_float py_str (Some EmptyString) w = Ok None
  /\ (forall s values, s <> EmptyString ->
        map py_float (py_split "," s) = map Some values ->
        scale_dash_array py_float py_str (Some s) w
        = Ok (Some (py_join "," (map (fun v => py_str (v * w)%Q) values))))
  /\ (forall s t, s <> EmptyString -> In t (py_split "," s) -> py_float t = None ->
        scale_dash_array py_float py_str (Some s) w = Err "ValueError"%string).
Proof.
  split; [reflexivity|]. split; [reflexivity|]. split.
  - intros [|c s] values Hne H; [contradiction|].
    cbv beta iota delta [scale_dash_array].
    rewrite (scale_tokens_ok py_float py_str w _ values H). reflexivity.
  - intros [|c s] t Hne Hin Ht; [contradiction|].
    cbv beta iota delta [scale_dash_array].
    rewrite (scale_tokens_err py_float py_str w _ t Hin Ht). reflexivity.
Qed.

(** Witness for C7: with Python's decimal [float]/[str], "4,2" at width 2
    gives "8.0,4.0" and "4,abc" raises. *)
Lemma dash_array_scaling_witness :
  scale_dash_array decimal_float decimal_str (Some "4,2"%string) 2
    = Ok (Some "8.0,4.0"%string)
  /\ scale_dash_array decimal_float decimal_str (Some "4,abc"%string) 2
    = Err "ValueError"%string.
Proof.
  destruct (dash_array_scaling decimal_float decimal_str 2) as [_ [_ [Hok Herr]]].
  split.
  - rewrite (Hok "4,2"%string [4%Q; 2%Q]); [reflexivity | discriminate | reflexivity].
  - apply (Herr "4,abc"%string "abc"%string);
      [discriminate | simpl; auto | reflexivity].
Defined.

Lemma multiline_runs_nth (lines : list string) (i0 i : nat) (x y fs : Q) (a : string) :
  nth_error (multiline_runs lines i0 x y fs a) i
  = match nth_error lines i with
    | Some line =>
        Some (mkTextRun line x (y + inject_Z (Z.of_nat (i0 + i)) * (fs * (12#10)))%Q fs a)
    | None => None
    end.
Proof.
  revert i0 i; induction lines as [|line rest IH]; intros i0 [|i]; simpl;
    try reflexivity.
  - rewrite Nat.add_0_r. reflexivity.
  - rewrite IH, Nat.add_succ_r. reflexivity.
Qed.

Lemma multiline_runs_length (lines : list string) (i0 : nat) (x y fs : Q) (a : string) :
  length (multiline_runs lines i0 x y fs a) = length lines.
Proof.
  revert i0; induction lines as [|line rest IH]; intros i0; simpl; [reflexivity|].
  rewrite IH. reflexivity.
Qed.

Lemma multiline_runs_in (lines : list string) (i0 : nat) (x y fs : Q) (a : string) r :
  In r (multiline_runs lines i0 x y fs a) ->
  run_x r = x /\ run_font_size r = fs /\ run_anchor r = a.
Proof.
  intros Hin. apply In_nth_error in Hin as [i Hi].
  rewrite multiline_runs_nth in Hi.
  destruct (nth_error lines i); [|discriminate].
  injection Hi as <-. simpl. auto.
Qed.

Lemma size_multiplier_get_eq (k : Z) :
  size_multiplier_get k = Ok (get_default (zassoc k SIZE_MULTIPLIERS) (3#2)).
Proof. reflexivity. Qed.

(** C8: for a record with non-empty text and a non-vertical justification
    [j], [render] emits one run per line of the (prefix-stripped) content,
    line i at y + off + i * (1.2 * fs), where fs is the multiplied font
    size; every run has x, font size fs and the anchor start for Left, end
    for Right and middle otherwise; off is 0.3 fs for Left, Center and
    Right, 0.6 fs for Top and 0 for Bottom. *)
Theorem text_layout (text : TextRec) (base : Q) (content : string) :
  t_text text = Some content -> content <> EmptyString ->
  is_vertical (get_default (t_justification text) "Left"%string) = false ->
  let j := get_default (t_justification text) "Left"%string in
  let x := get_default (t_x text) 0%Q in
  let y := get_default (t_y text) 0%Q in
  let lines := py_split newline
                 (strip_text_prefix (get_default (t_type text) "comment"%string) content) in
  exists m off runs,
    size_multiplier_get (get_default (t_size_multiplier text) 2) = Ok m
    /\ text_render text base = Ok (Some (mkTextOut None runs))
    /\ length runs = length lines
    /\ (forall i line, nth_error lines i = Some line ->
          exists r, nth_error runs i = Some r /\ run_text r = line
                    /\ run_y r = ((y + off) + inject_Z (Z.of_nat i) * ((base * m) * (12#10)))%Q)
    /\ (forall r, In r runs ->
          (run_x r == x)%Q /\ run_font_size r = (base * m)%Q
          /\ (j = "Left"%string -> run_anchor r = "start"%string)
          /\ (j = "Right"%string -> run_anchor r = "end"%string)
          /\ (j <> "Left"%string -> j <> "Right"%string -> run_anchor r = "middle"%string))
    /\ ((j = "Left"%string \/ j = "Center"%string \/ j = "Right"%string) ->
          (off == (base * m) * (3#10))%Q)
    /\ (j = "Top"%string -> (off == (base * m) * (6#10))%Q)
    /\ (j = "Bottom"%string -> (off == 0)%Q).
Proof.
  intros Ht Hne Hv j x y lines.
  exists (get_default (zassoc (get_default (t_size_multiplier text) 2) SIZE_MULTIPLIERS) (3#2)).
  set (m := get_default (zassoc (get_default (t_size_multiplier text) 2) SIZE_MULTIPLIERS) (3#2)).
  exists (y_offset_of j (base * m)).
  exists (create_multiline_text
            (strip_text_prefix (get_default (t_type text) "comment"%string) content)
            (x + 0) (y + y_offset_of j (base * m)) (base * m) (text_anchor_of j)).
  split; [apply size_multiplier_get_eq|].
  split.
  { destruct content as [|c s]; [contradiction|].
    unfold text_render. rewrite Ht. cbv zeta.
    rewrite size_multiplier_get_eq. fold m.
    subst j; rewrite Hv. reflexivity. }
  unfold create_multiline_text.
  split; [apply multiline_runs_length|].
  split.
  { intros i line Hl. rewrite multiline_runs_nth. fold lines. rewrite Hl.
    eexists; split; [reflexivity|]. split; reflexivity. }
  split.
  { intros r Hr. apply multiline_runs_in in Hr as (Hx & Hf & Ha).
    rewrite Hx, Hf, Ha. split; [ring|]. split; [reflexivity|].
    unfold text_anchor_of.
    split; [intros ->; reflexivity|]. split; [intros ->; reflexivity|].
    intros H1 H2. apply String.eqb_neq in H1, H2. rewrite H1, H2. reflexivity. }
  unfold y_offset_of.
  split; [|split].
  - intros [-> | [-> | ->]]; reflexivity.
  - intros ->. reflexivity.
  - intros ->. simpl. ring.
Qed.

(** Witness for C8: "A\nB" at x 10, y 100, justification Left and font
    size 20 (base 20, multiplier index 1) gives two runs. *)
Lemma text_layout_witness :
  exists m runs,
    size_multiplier_get 1 = Ok m
    /\ text_render (mkTextRec (Some 10%Q) (Some 100%Q) (Some (String "A" (String newline (String "B" EmptyString))))
                     (Some "Left"%string) (Some 1) (Some "comment"%string)) 20
       = Ok (Some (mkTextOut None runs))
    /\ length runs = 2%nat.
Proof.
  destruct (text_layout (mkTextRec (Some 10%Q) (Some 100%Q) (Some (String "A" (String newline (String "B" EmptyString))))
                     (Some "Left"%string) (Some 1) (Some "comment"%string)) 20
              (String "A" (String newline (String "B" EmptyString))) eq_refl ltac:(discriminate) eq_refl)
    as (m & off & runs & Hm & Hr & Hlen & _).
  exists m, runs. split; [exact Hm|]. split; [exact Hr|].
  rewrite Hlen. reflexivity.
Defined.

Lemma zassoc_size_outside (k : Z) :
  (k < 0 \/ 7 < k) -> zassoc k SIZE_MULTIPLIERS = None.
Proof.
  intros Hk. unfold SIZE_MULTIPLIERS; simpl.
  repeat match goal with
  | |- context [Z.eqb ?a ?b] => destruct (Z.eqb_spec a b); [lia|]
  end; reflexivity.
Qed.

(** C10: [render] never raises on the multiplier lookup; when the record's
    size_multiplier index (default 2) is outside 0..7 the lookup yields
    1.5, and every emitted run has font size 1.5 times the base size. *)
Theorem text_size_default (text : TextRec) (base : Q) :
  let k := get_default (t_size_multiplier text) 2 in
  (k < 0 \/ 7 < k) ->
  size_multiplier_get k = Ok (3#2)
  /\ exists o, text_render text base = Ok o
       /\ forall out r, o = Some out -> In r (out_runs out) ->
            run_font_size r = (base * (3#2))%Q.
Proof.
  intros k Hk.
  assert (Hm : size_multiplier_get k = Ok (3#2)).
  { rewrite size_multiplier_get_eq, zassoc_size_outside by exact Hk. reflexivity. }
  split; [exact Hm|].
  unfold text_render.
  destruct (t_text text) as [[|c s]|].
  - exists None. split; [reflexivity|]. discriminate.
  - cbv zeta. fold k. rewrite Hm.
    eexists; split; [reflexivity|].
    intros out r Ho Hr. injection Ho as <-. simpl in Hr.
    apply multiline_runs_in in Hr as (_ & Hf & _). exact Hf.
  - exists None. split; [reflexivity|]. discriminate.
Qed.

(** Witness for C10: index 9 falls back to 1.5. *)
Lemma text_size_default_witness :
  size_multiplier_get 9 = Ok (3#2)
  /\ exists o, text_render (mkTextRec None None (Some "R1"%string) None (Some 9) None) 22 = Ok o.
Proof.
  destruct (text_size_default (mkTextRec None None (Some "R1"%string) None (Some 9) None) 22
              ltac:(simpl; lia)) as [Hm [o [Ho _]]].
  split; [exact Hm|]. exists o. exact Ho.
Defined.

Section RenderSymbolsFacts.
Variable Sym : Type.
Variable sym_get_name : Sym -> option string.
Variable SymDef : Type.
Variable Prim : Type.
Variable render_one : Sym -> SymDef -> result (list Prim).
Variable text_only : SymDef -> bool.
Variable symbol_data : list (string * SymDef).
Variable no_nested_symbol_text : bool.

Local Abbreviation loop :=
  (render_symbols_loop Sym sym_get_name SymDef Prim render_one text_only symbol_data
     no_nested_symbol_text).

Lemma render_symbols_loop_app (l1 l2 : list Sym) (ps : list Prim) (ws : list string) :
  loop (l1 ++ l2) ps ws
  = match loop l1 ps ws with
    | Ok (ps', ws') => loop l2 ps' ws'
    | Err e => Err e
    end.
Proof.
  revert ps ws; induction l1 as [|s rest IH]; intros ps ws; [reflexivity|].
  simpl.
  destruct (get_default (sym_get_name s) "Unknown"%string) as [|c n];
    [apply IH|].
  destruct (str_lookup (String c n) symbol_data) as [d|]; [|apply IH].
  destruct (no_nested_symbol_text && text_only d); [apply IH|].
  destruct (render_one s d); [apply IH|reflexivity].
Qed.

Lemma render_symbols_loop_prims (l : list Sym) (ps : list Prim) (ws ws' : list string) :
  result_map fst (loop l ps ws) = result_map fst (loop l ps ws').
Proof.
  revert ps ws ws'; induction l as [|s rest IH]; intros ps ws ws'; [reflexivity|].
  simpl.
  destruct (get_default (sym_get_name s) "Unknown"%string) as [|c n];
    [apply IH|].
  destruct (str_lookup (String c n) symbol_data) as [d|]; [|apply IH].
  destruct (no_nested_symbol_text && text_only d); [apply IH|].
  destruct (render_one s d); [apply IH|reflexivity].
Qed.

Lemma render_symbols_loop_warns (l : list Sym) (ps ps' : list Prim) (ws ws' : list string) :
  loop l ps ws = Ok (ps', ws') -> exists suffix, ws' = ws ++ suffix.
Proof.
  revert ps ws; induction l as [|s rest IH]; intros ps ws H.
  - injection H as _ <-. exists []. symmetry. apply app_nil_r.
  - simpl in H.
    destruct (get_default (sym_get_name s) "Unknown"%string) as [|c n].
    + apply IH in H as [suf ->]. eexists. rewrite <- app_assoc. reflexivity.
    + destruct (str_lookup (String c n) symbol_data) as [d|].
      * destruct (no_nested_symbol_text && text_only d); [exact (IH _ _ H)|].
        destruct (render_one s d); [exact (IH _ _ H)|discriminate].
      * apply IH in H as [suf ->]. eexists. rewrite <- app_assoc. reflexivity.
Qed.

Lemma render_symbols_loop_missing (bad : Sym) (l : list Sym) (ps : list Prim) (ws : list string) :
  definition_missing Sym sym_get_name SymDef symbol_data bad ->
  loop (bad :: l) ps ws
  = loop l ps (ws ++ [missing_definition_warning
                        (get_default (sym_get_name bad) "Unknown"%string)]).
Proof.
  unfold definition_missing. cbn [render_symbols_loop]. cbv zeta.
  remember (get_default (sym_get_name bad) "Unknown"%string) as n.
  intros [-> | H]; [reflexivity|].
  destruct n as [|c m]; [reflexivity|]. rewrite H. reflexivity.
Qed.
End RenderSymbolsFacts.

(** C9: if an instance's definition is missing from the symbol library,
    [render_symbols] draws exactly what it draws without that instance
    (the same primitives of all other instances, or the same exception
    raised by one of them), so the instance itself adds no primitive and
    does not abort the render; when the render completes, its warnings
    include "Symbol definition not found" for that name. *)
Theorem missing_definition_skipped (Sym : Type) (sym_get_name : Sym -> option string)
  (SymDef Prim : Type) (render_one : Sym -> SymDef -> result (list Prim))
  (text_only : SymDef -> bool) (symbol_data : list (string * SymDef))
  (no_nested_symbol_text : bool) (l1 l2 : list Sym) (bad : Sym) :
  definition_missing Sym sym_get_name SymDef symbol_data bad ->
  let render := render_symbols Sym sym_get_name SymDef Prim render_one text_only
                  symbol_data no_nested_symbol_text in
  result_map fst (render (l1 ++ bad :: l2)) = result_map fst (render (l1 ++ l2))
  /\ (forall r, render (l1 ++ l2) = Ok r -> exists r', render (l1 ++ bad :: l2) = Ok r')
  /\ (forall ps ws, render (l1 ++ bad :: l2) = Ok (ps, ws) ->
        In (missing_definition_warning (get_default (sym_get_name bad) "Unknown"%string)) ws).
Proof.
  intros Hbad render.
  assert (Hprims : result_map fst (render (l1 ++ bad :: l2)) = result_map fst (render (l1 ++ l2))).
  { unfold render, render_symbols. rewrite !render_symbols_loop_app.
    destruct (render_symbols_loop _ _ _ _ _ _ _ _ l1 [] []) as [[ps ws]|e]; [|reflexivity].
    rewrite render_symbols_loop_missing by exact Hbad.
    apply render_symbols_loop_prims. }
  split; [exact Hprims|]. split.
  - intros r Hr. rewrite Hr in Hprims.
    destruct (render (l1 ++ bad :: l2)) as [r'|e]; [exists r'; reflexivity|discriminate].
  - intros ps ws H. unfold render, render_symbols in H.
    rewrite render_symbols_loop_app in H.
    destruct (render_symbols_loop _ _ _ _ _ _ _ _ l1 [] []) as [[ps1 ws1]|e]; [|discriminate].
    rewrite render_symbols_loop_missing in H by exact Hbad.
    apply render_symbols_loop_warns in H as [suf ->].
    apply in_or_app. left. apply in_or_app. right. left. reflexivity.
Qed.

(** Witness for C9: instances R, X, R with only R defined; X is skipped
    with a warning and both R instances are drawn. *)
Lemma missing_definition_skipped_witness :
  render_symbols string (fun s => Some s) nat nat (fun _ d => Ok [d]) (fun _ => false)
    [("R"%string, 1%nat)] false ["R"%string; "X"%string; "R"%string]
  = Ok ([1; 1]%nat, [missing_definition_warning "X"])
  /\ result_map fst (render_symbols string (fun s => Some s) nat nat (fun _ d => Ok [d])
       (fun _ => false) [("R"%string, 1%nat)] false (["R"%string] ++ "X"%string :: ["R"%string]))
     = result_map fst (render_symbols string (fun s => Some s) nat nat (fun _ d => Ok [d])
       (fun _ => false) [("R"%string, 1%nat)] false (["R"%string] ++ ["R"%string])).
Proof.
  split; [reflexivity|].
  apply (missing_definition_skipped string (fun s => Some s) nat nat (fun _ d => Ok [d])
           (fun _ => false) [("R"%string, 1%nat)] false ["R"%string] ["R"%string] "X"%string).
  right. reflexivity.
Defined.

(** ** Rectangles *)

Lemma abs_sub_swap (a b : Z) : Z.abs (a - b) = Z.abs (b - a).
Proof. replace (a - b) with (- (b - a)) by ring. apply Z.abs_opp. Qed.

Lemma inject_Z_sub (a b : Z) : inject_Z (a - b) = (inject_Z a - inject_Z b)%Q.
Proof. unfold Qminus. rewrite <- inject_Z_opp, <- inject_Z_plus. reflexivity. Qed.

(** [render_rectangle] does not depend on the order in which the two
    corners are given: swapping x1 with x2, or y1 with y2, gives the same
    element; a solid rectangle drawn at a non-negative scale has a
    non-negative width and height. *)
Theorem render_rectangle_corner_order (py_float : string -> option Q)
  (py_str : Q -> string) (rect : RectShape) (scale stroke_width : Q) :
  render_rectangle py_float py_str
    (mkRectShape (r_x2 rect) (r_y1 rect) (r_x1 rect) (r_y2 rect) (r_style rect))
    scale stroke_width
  = render_rectangle py_float py_str rect scale stroke_width
  /\ render_rectangle py_float py_str
       (mkRectShape (r_x1 rect) (r_y2 rect) (r_x2 rect) (r_y1 rect) (r_style rect))
       scale stroke_width
     = render_rectangle py_float py_str rect scale stroke_width
  /\ forall insert size,
       (0 <= scale)%Q -> r_style rect = None ->
       render_rectangle py_float py_str rect scale stroke_width = Ok (RectEl insert size None) ->
       (0 <= fst size)%Q /\ (0 <= snd size)%Q.
Proof.
  destruct rect as [a b c d st]; unfold render_rectangle; simpl.
  split; [rewrite (Z.min_comm c a), (abs_sub_swap a c); reflexivity|].
  split; [rewrite (Z.min_comm d b), (abs_sub_swap b d); reflexivity|].
  intros insert size Hs -> H. injection H as _ <-. simpl.
  split; apply Qmult_le_0_compat; try exact Hs;
    match goal with |- (0 <= inject_Z ?v)%Q =>
      change (inject_Z 0 <= inject_Z v)%Q end;
    rewrite <- Zle_Qle; apply Z.abs_nonneg.
Qed.

(** Witness: the rectangle with corners (10, 20) and (0, 0) at scale 1/2. *)
Lemma render_rectangle_corner_order_witness :
  exists insert size,
    render_rectangle decimal_float decimal_str (mkRectShape 10 20 0 0 None) (1#2) 1
      = Ok (RectEl insert size None)
    /\ (0 <= fst size)%Q /\ (0 <= snd size)%Q.
Proof.
  eexists; eexists. split; [vm_compute; reflexivity|].
  destruct (render_rectangle_corner_order decimal_float decimal_str
              (mkRectShape 10 20 0 0 None) (1#2) 1) as [_ [_ H]].
  eapply H; [discriminate | reflexivity | vm_compute; reflexivity].
Defined.

(** A styled rectangle is drawn by [render_rectangle] as a closed path
    through the four corners of the box spanned by the two corner points
    (scaled), starting at the corner with the smallest coordinates and
    going along x first; the solid rectangle of the same record covers
    the same box. *)
Theorem render_rectangle_path_corners (py_float : string -> option Q)
  (py_str : Q -> string) (rect : RectShape) (scale stroke_width : Q) d dash :
  render_rectangle py_float py_str rect scale stroke_width = Ok (RectPath d dash) ->
  let lo_x := (inject_Z (Z.min (r_x1 rect) (r_x2 rect)) * scale)%Q in
  let hi_x := (inject_Z (Z.max (r_x1 rect) (r_x2 rect)) * scale)%Q in
  let lo_y := (inject_Z (Z.min (r_y1 rect) (r_y2 rect)) * scale)%Q in
  let hi_y := (inject_Z (Z.max (r_y1 rect) (r_y2 rect)) * scale)%Q in
  (exists p1 p2 p3 p4,
      d = [PM p1; PL p2; PL p3; PL p4; PZ]
      /\ peq p1 (lo_x, lo_y) /\ peq p2 (hi_x, lo_y)
      /\ peq p3 (hi_x, hi_y) /\ peq p4 (lo_x, hi_y))
  /\ (exists insert size,
        render_rectangle py_float py_str
          (mkRectShape (r_x1 rect) (r_y1 rect) (r_x2 rect) (r_y2 rect) None)
          scale stroke_width
        = Ok (RectEl insert size None)
        /\ peq insert (lo_x, lo_y) /\ peq (add_pt insert size) (hi_x, hi_y)).
Proof.
  intros H; cbv zeta.
  destruct rect as [a b c e st]; unfold render_rectangle in *;
    cbn [r_x1 r_x2 r_y1 r_y2 r_style] in *.
  assert (Hx : inject_Z (Z.max a c) = (inject_Z (Z.min a c) + inject_Z (Z.abs (c - a)))%Q).
  { rewrite <- inject_Z_plus. f_equal. lia. }
  assert (Hy : inject_Z (Z.max b e) = (inject_Z (Z.min b e) + inject_Z (Z.abs (e - b)))%Q).
  { rewrite <- inject_Z_plus. f_equal. lia. }
  split.
  - destruct st as [style|]; [|discriminate].
    destruct (scale_dash_array py_float py_str (Some style) stroke_width); [|discriminate].
    injection H as <- _.
    do 4 eexists. split; [reflexivity|].
    unfold peq; simpl; rewrite Hx, Hy.
    repeat split; simpl; ring.
  - do 2 eexists. split; [reflexivity|].
    unfold peq, add_pt; simpl; rewrite Hx, Hy.
    repeat split; simpl; ring.
Qed.

(** Witness: a dashed rectangle with corners (4, 0) and (0, 2). *)
Lemma render_rectangle_path_corners_witness :
  exists d dash,
    render_rectangle decimal_float decimal_str (mkRectShape 4 0 0 2 (Some "4,2"%string)) 1 1
      = Ok (RectPath d dash)
    /\ exists p1 p2 p3 p4, d = [PM p1; PL p2; PL p3; PL p4; PZ].
Proof.
  eexists; eexists. split; [vm_compute; reflexivity|].
  destruct (render_rectangle_path_corners decimal_float decimal_str
              (mkRectShape 4 0 0 2 (Some "4,2"%string)) 1 1 _ _
              ltac:(vm_compute; reflexivity)) as [(p1 & p2 & p3 & p4 & Hd & _) _].
  exists p1, p2, p3, p4. exact Hd.
Defined.

(** [_create_rectangle] uses its corners as given ([insert=(x1, y1)],
    [size=(x2-x1, y2-y1)]) while [render_rectangle] normalises them: for
    integer corners, unscaled and without style, the two emit the same
    rectangle exactly when x1 <= x2 and y1 <= y2; otherwise
    [_create_rectangle] emits a negative width or height. *)
Theorem create_rectangle_vs_render (py_float : string -> option Q)
  (py_str : Q -> string) (x1 y1 x2 y2 : Z) (stroke_width : Q) :
  exists i1 s1 i2 s2,
    create_rectangle py_float py_str (inject_Z x1) (inject_Z y1) (inject_Z x2) (inject_Z y2)
      stroke_width None = Ok (RectEl i1 s1 None)
    /\ render_rectangle py_float py_str (mkRectShape x1 y1 x2 y2 None) 1 stroke_width
       = Ok (RectEl i2 s2 None)
    /\ ((peq i1 i2 /\ peq s1 s2) <-> (x1 <= x2 /\ y1 <= y2))
    /\ ((x2 < x1 \/ y2 < y1) -> (fst s1 < 0)%Q \/ (snd s1 < 0)%Q).
Proof.
  do 4 eexists. split; [reflexivity|]. split; [reflexivity|].
  unfold peq; simpl.
  rewrite !Qmult_1_r, <- !inject_Z_sub, !inject_Z_injective.
  split.
  - split; [intros [[H1 H2] [H3 H4]]; lia | intros [H1 H2]; repeat split; lia].
  - intros H.
    destruct (Z.lt_ge_cases x2 x1) as [Hx|Hx]; [left|right];
      match goal with |- (inject_Z ?v < 0)%Q => change (inject_Z v < inject_Z 0)%Q end;
      rewrite <- Zlt_Qlt; lia.
Qed.

(** Witness: corners (4, 0) and (0, 2) give a negative width. *)
Lemma create_rectangle_vs_render_witness :
  exists i1 s1 i2 s2,
    create_rectangle decimal_float decimal_str 4 0 0 2 1 None = Ok (RectEl i1 s1 None)
    /\ render_rectangle decimal_float decimal_str (mkRectShape 4 0 0 2 None) 1 1
       = Ok (RectEl i2 s2 None)
    /\ ((fst s1 < 0)%Q \/ (snd s1 < 0)%Q).
Proof.
  destruct (create_rectangle_vs_render decimal_float decimal_str 4 0 0 2 1)
    as (i1 & s1 & i2 & s2 & H1 & H2 & _ & H4).
  exists i1, s1, i2, s2. split; [exact H1|]. split; [exact H2|].
  apply H4. left. reflexivity.
Defined.

(** ** The renderer's T-junctions *)

(** [SVGRenderer._find_t_junctions] returns, without repetition, exactly
    the points at which at least three wire ends lie (both ends of a wire
    count, so a zero-length wire counts twice at its point); it applies no
    direction test and excludes no terminal. *)
Theorem renderer_t_junctions_characterised (wires : list Wire) :
  NoDup (renderer_find_t_junctions wires)
  /\ forall p, In p (renderer_find_t_junctions wires) <-> (3 <= ends_at p wires)%nat.
Proof.
  destruct (tally_spec wires) as [Hnd Hcount].
  unfold renderer_find_t_junctions.
  split; [apply nodup_keys_filter; exact Hnd|].
  intros p; rewrite in_map_iff. split.
  - intros [[q n] [Eq Hin]]. simpl in Eq; subst q.
    apply filter_In in Hin as [Hin Hn].
    rewrite <- Hcount, (lookup_In p n _ Hnd Hin).
    apply Nat.leb_le. exact Hn.
  - intros H.
    assert (Hpos : (0 < lookup_count p (tally wires))%nat) by (rewrite Hcount; lia).
    destruct (lookup_pos_key p _ Hpos) as [n Hin].
    exists (p, n). split; [reflexivity|].
    apply filter_In. split; [exact Hin|].
    apply Nat.leb_le. rewrite <- (lookup_In p n _ Hnd Hin), Hcount. exact H.
Qed.

(** ** The viewBox of [generate] *)

Lemma fold_min_spec (l : list Z) (m : Z) :
  In (fold_left Z.min l m) (m :: l) /\ forall v, In v (m :: l) -> fold_left Z.min l m <= v.
Proof.
  revert m; induction l as [|x l IH]; intros m; simpl.
  - split; [left; reflexivity|]. intros v [<-|[]]; lia.
  - destruct (IH (Z.min m x)) as [Hin Hle]. split.
    + destruct Hin as [E|Hin]; [|right; right; exact Hin].
      rewrite <- E. destruct (Z.min_spec m x) as [[_ ->]|[_ ->]]; [left|right; left]; reflexivity.
    + intros v [<-|[<-|Hv]].
      * specialize (Hle (Z.min m x) (or_introl eq_refl)). lia.
      * specialize (Hle (Z.min m x) (or_introl eq_refl)). lia.
      * apply Hle; right; exact Hv.
Qed.

Lemma fold_max_spec (l : list Z) (m : Z) :
  In (fold_left Z.max l m) (m :: l) /\ forall v, In v (m :: l) -> v <= fold_left Z.max l m.
Proof.
  revert m; induction l as [|x l IH]; intros m; simpl.
  - split; [left; reflexivity|]. intros v [<-|[]]; lia.
  - destruct (IH (Z.max m x)) as [Hin Hle]. split.
    + destruct Hin as [E|Hin]; [|right; right; exact Hin].
      rewrite <- E. destruct (Z.max_spec m x) as [[_ ->]|[_ ->]]; [right; left|left]; reflexivity.
    + intros v [<-|[<-|Hv]].
      * specialize (Hle (Z.max m x) (or_introl eq_refl)). lia.
      * specialize (Hle (Z.max m x) (or_introl eq_refl)). lia.
      * apply Hle; right; exact Hv.
Qed.

Definition opt_is_min (m : option Z) (l : list Z) : Prop :=
  match m with None => l = [] | Some a => is_min a l end.
Definition opt_is_max (m : option Z) (l : list Z) : Prop :=
  match m with None => l = [] | Some a => is_max a l end.

Lemma py_min_from_ok (m : option Z) (l : list Z) (vs : Z * list Z) :
  opt_is_min m l -> is_min (py_min_from m vs) (l ++ fst vs :: snd vs).
Proof.
  destruct vs as [v vs]; destruct m as [a|]; unfold py_min_from, opt_is_min; cbn [fst snd]; intros H.
  - destruct H as [Ha Hl]. destruct (fold_min_spec (v :: vs) a) as [Hin Hle].
    split.
    + destruct Hin as [E|Hin]; apply in_app_iff; [left; rewrite <- E; exact Ha|right; exact Hin].
    + intros w Hw. apply in_app_iff in Hw. destruct Hw as [Hw|Hw].
      * specialize (Hle a (or_introl eq_refl)). specialize (Hl w Hw). lia.
      * apply Hle; right; exact Hw.
  - subst l; simpl. exact (fold_min_spec vs v).
Qed.

Lemma py_max_from_ok (m : option Z) (l : list Z) (vs : Z * list Z) :
  opt_is_max m l -> is_max (py_max_from m vs) (l ++ fst vs :: snd vs).
Proof.
  destruct vs as [v vs]; destruct m as [a|]; unfold py_max_from, opt_is_max; cbn [fst snd]; intros H.
  - destruct H as [Ha Hl]. destruct (fold_max_spec (v :: vs) a) as [Hin Hle].
    split.
    + destruct Hin as [E|Hin]; apply in_app_iff; [left; rewrite <- E; exact Ha|right; exact Hin].
    + intros w Hw. apply in_app_iff in Hw. destruct Hw as [Hw|Hw].
      * specialize (Hle a (or_introl eq_refl)). specialize (Hl w Hw). lia.
      * apply Hle; right; exact Hw.
  - subst l; simpl. exact (fold_max_spec vs v).
Qed.

Lemma map_as_flat_map {A B : Type} (f : A -> B) (l : list A) :
  flat_map (fun x => [f x]) l = map f l.
Proof. induction l as [|x l IH]; simpl; [reflexivity|rewrite IH; reflexivity]. Qed.

(** The invariant of the bounds loops: no element yet, or the four
    bounds are the least and greatest of the extents seen so far. *)
Definition bounds_ok (b : Bounds) (E : list Extent) : Prop :=
  match b with
  | None => E = []
  | Some (a, b', c, d) =>
      is_min a (map e_lo_x E) /\ is_max b' (map e_hi_x E)
      /\ is_min c (map e_lo_y E) /\ is_max d (map e_hi_y E)
  end.

Lemma include_ok (b : Bounds) (E F : list Extent) (lo hi lo' hi' : Z * list Z) :
  bounds_ok b E ->
  fst lo :: snd lo = map e_lo_x F -> fst hi :: snd hi = map e_hi_x F ->
  fst lo' :: snd lo' = map e_lo_y F -> fst hi' :: snd hi' = map e_hi_y F ->
  bounds_ok (include b lo hi lo' hi') (E ++ F).
Proof.
  intros Hb E1 E2 E3 E4. unfold include, bounds_ok.
  rewrite !map_app, <- E1, <- E2, <- E3, <- E4.
  destruct b as [[[[a b'] c] d]|]; simpl option_map; cbv beta iota.
  - destruct Hb as [H1 [H2 [H3 H4]]].
    repeat split; first [apply py_min_from_ok | apply py_max_from_ok]; assumption.
  - simpl in Hb; subst E; simpl.
    repeat split; first [apply (py_min_from_ok None []) | apply (py_max_from_ok None [])];
      reflexivity.
Qed.

Lemma include_fold_ok {X : Type} (ext : X -> list Extent)
  (lo hi lo' hi' : X -> Z * list Z) (es : list X) (b : Bounds) (E : list Extent) :
  (forall e, fst (lo e) :: snd (lo e) = map e_lo_x (ext e)) ->
  (forall e, fst (hi e) :: snd (hi e) = map e_hi_x (ext e)) ->
  (forall e, fst (lo' e) :: snd (lo' e) = map e_lo_y (ext e)) ->
  (forall e, fst (hi' e) :: snd (hi' e) = map e_hi_y (ext e)) ->
  bounds_ok b E ->
  bounds_ok (fold_left (fun b e => include b (lo e) (hi e) (lo' e) (hi' e)) es b)
            (E ++ flat_map ext es).
Proof.
  intros H1 H2 H3 H4. revert b E; induction es as [|e es IH]; intros b E Hb; simpl.
  - rewrite app_nil_r; exact Hb.
  - rewrite app_assoc. apply IH. apply include_ok; auto.
Qed.

Lemma generate_bounds_ok (wires : list Wire) (symbols : list SymbolInst)
  (texts flags : list (Z * Z)) (shapes : list (string * list ShapeBox)) :
  bounds_ok (generate_bounds wires symbols texts flags shapes)
            (element_extents wires symbols texts flags shapes).
Proof.
  unfold generate_bounds, element_extents.
  rewrite !app_assoc.
  assert (Hs : forall b E, bounds_ok b E ->
            bounds_ok (fold_left (fun b '(_, l) =>
               fold_left (fun b s =>
                            include b (s_x1 s, [s_x2 s]) (s_x1 s, [s_x2 s])
                                      (s_y1 s, [s_y2 s]) (s_y1 s, [s_y2 s])) l b) shapes b)
              (E ++ flat_map (fun '(_, l) =>
                 flat_map (fun s => [point_extent (s_x1 s) (s_y1 s);
                                     point_extent (s_x2 s) (s_y2 s)]) l) shapes)).
  { induction shapes as [|[k l] sh IH]; intros b E Hb; simpl.
    - rewrite app_nil_r; exact Hb.
    - rewrite app_assoc. apply IH.
      apply (include_fold_ok (fun s => [point_extent (s_x1 s) (s_y1 s);
                                        point_extent (s_x2 s) (s_y2 s)])
               (fun s => (s_x1 s, [s_x2 s])) (fun s => (s_x1 s, [s_x2 s]))
               (fun s => (s_y1 s, [s_y2 s])) (fun s => (s_y1 s, [s_y2 s])));
        try reflexivity; exact Hb. }
  apply Hs.
  rewrite <- (map_as_flat_map (fun f => mkExtent (fst f - 20) (fst f + 20) (snd f - 10) (snd f + 10)) flags).
  apply (include_fold_ok (fun f => [mkExtent (fst f - 20) (fst f + 20) (snd f - 10) (snd f + 10)])
           (fun f => (fst f - 20, [])) (fun f => (fst f + 20, []))
           (fun f => (snd f - 10, [])) (fun f => (snd f + 10, []))); try reflexivity.
  rewrite <- (map_as_flat_map (fun t => mkExtent (fst t - 50) (fst t + 50) (snd t - 20) (snd t + 20)) texts).
  apply (include_fold_ok (fun t => [mkExtent (fst t - 50) (fst t + 50) (snd t - 20) (snd t + 20)])
           (fun t => (fst t - 50, [])) (fun t => (fst t + 50, []))
           (fun t => (snd t - 20, [])) (fun t => (snd t + 20, []))); try reflexivity.
  rewrite <- (map_as_flat_map (fun s => mkExtent (sym_x s - symbol_extent) (sym_x s + symbol_extent)
                            (sym_y s - symbol_extent) (sym_y s + symbol_extent)) symbols).
  apply (include_fold_ok (fun s => [mkExtent (sym_x s - symbol_extent) (sym_x s + symbol_extent)
                            (sym_y s - symbol_extent) (sym_y s + symbol_extent)])
           (fun s => (sym_x s - symbol_extent, [])) (fun s => (sym_x s + symbol_extent, []))
           (fun s => (sym_y s - symbol_extent, [])) (fun s => (sym_y s + symbol_extent, [])));
    try reflexivity.
  exact (include_fold_ok (fun w => [point_extent (x1 w) (y1 w); point_extent (x2 w) (y2 w)])
           (fun w => (x1 w, [x2 w])) (fun w => (x1 w, [x2 w]))
           (fun w => (y1 w, [y2 w])) (fun w => (y1 w, [y2 w])) wires None []
           (fun _ => eq_refl) (fun _ => eq_refl) (fun _ => eq_refl) (fun _ => eq_refl) eq_refl).
Qed.

Lemma viewbox_low_margin (s : Q) (a v : Z) :
  (0 < s)%Q -> a <= v ->
  ((inject_Z a - 50 * s) * s + 50 * s * s <= inject_Z v * s)%Q.
Proof.
  intros Hs Hav. apply Qle_trans with (inject_Z a * s)%Q.
  - apply Qle_lteq; right; ring.
  - apply Qmult_le_compat_r; [rewrite <- Zle_Qle; exact Hav|apply Qlt_le_weak; exact Hs].
Qed.

Lemma viewbox_high_margin (s : Q) (a b v : Z) :
  (0 < s)%Q -> v <= b ->
  (inject_Z v * s <= (inject_Z a - 50 * s) * s
     + ((inject_Z b + 50 * s) * s - (inject_Z a - 50 * s) * s) - 50 * s * s)%Q.
Proof.
  intros Hs Hvb. apply Qle_trans with (inject_Z b * s)%Q.
  - apply Qmult_le_compat_r; [rewrite <- Zle_Qle; exact Hvb|apply Qlt_le_weak; exact Hs].
  - apply Qle_lteq; right; ring.
Qed.

(** The bounds computed by [generate] are exact: with no wire, symbol,
    text, flag or shape there are none (the default box is used), and
    otherwise [min_x] is the least left edge of all element extents
    (wire and shape endpoints, symbol position - 100, text x - 50, flag
    x - 20) and is one of them, [max_x] the greatest right edge, and the
    same for y. *)
Theorem generate_bounds_exact (wires : list Wire) (symbols : list SymbolInst)
  (texts flags : list (Z * Z)) (shapes : list (string * list ShapeBox)) :
  let E := element_extents wires symbols texts flags shapes in
  match generate_bounds wires symbols texts flags shapes with
  | None => E = []
  | Some (min_x, max_x, min_y, max_y) =>
      is_min min_x (map e_lo_x E) /\ is_max max_x (map e_hi_x E)
      /\ is_min min_y (map e_lo_y E) /\ is_max max_y (map e_hi_y E)
  end.
Proof. exact (generate_bounds_ok wires symbols texts flags shapes). Qed.

(** For a positive scale, the viewBox [(x, y, w, h)] of [generate]
    contains every element extent scaled, with a margin of the scaled
    padding [50 * scale * scale] on each side; a schematic with no
    element gets the default box from -100 to 100, padded and scaled. *)
Theorem generate_viewbox_covers (wires : list Wire) (symbols : list SymbolInst)
  (texts flags : list (Z * Z)) (shapes : list (string * list ShapeBox)) (scale : Q) :
  (0 < scale)%Q ->
  let E := element_extents wires symbols texts flags shapes in
  let '(vx, vy, w, h) := generate_viewbox wires symbols texts flags shapes scale in
  (forall e, In e E ->
     (vx + 50 * scale * scale <= inject_Z (e_lo_x e) * scale)%Q
     /\ (inject_Z (e_hi_x e) * scale <= vx + w - 50 * scale * scale)%Q
     /\ (vy + 50 * scale * scale <= inject_Z (e_lo_y e) * scale)%Q
     /\ (inject_Z (e_hi_y e) * scale <= vy + h - 50 * scale * scale)%Q)
  /\ (E = [] ->
      vx == (-100 - 50 * scale) * scale /\ vy == (-100 - 50 * scale) * scale
      /\ w == (200 + 100 * scale) * scale /\ h == (200 + 100 * scale) * scale)%Q.
Proof.
  intros Hs E. pose proof (generate_bounds_ok wires symbols texts flags shapes) as Hb.
  fold E in Hb. unfold generate_viewbox.
  destruct (generate_bounds wires symbols texts flags shapes) as [[[[a b] c] d]|].
  - destruct Hb as [[Ha Hal] [[Hb' Hbl] [[Hc Hcl] [Hd Hdl]]]]. split.
    + intros e He. repeat split.
      * apply viewbox_low_margin; [exact Hs|apply Hal, in_map; exact He].
      * apply viewbox_high_margin; [exact Hs|apply Hbl, in_map; exact He].
      * apply viewbox_low_margin; [exact Hs|apply Hcl, in_map; exact He].
      * apply viewbox_high_margin; [exact Hs|apply Hdl, in_map; exact He].
    + intros E0. rewrite E0 in Ha. destruct Ha.
  - simpl in Hb. split.
    + intros e He. rewrite Hb in He. destruct He.
    + intros _. repeat split; ring.
Qed.

Lemma generate_viewbox_covers_witness :
  (0 < 1 # 10)%Q /\
  let E := element_extents [mkWire 0 0 100 0] [mkSymbolInst "R" 300 200 "R0"]
             [(10, -40)] [(0, 0)] [("rectangle"%string, [mkShapeBox (-30) 0 60 80])] in
  let '(vx, vy, w, h) :=
    generate_viewbox [mkWire 0 0 100 0] [mkSymbolInst "R" 300 200 "R0"]
      [(10, -40)] [(0, 0)] [("rectangle"%string, [mkShapeBox (-30) 0 60 80])] (1 # 10) in
  (forall e, In e E ->
     (vx + 50 * (1 # 10) * (1 # 10) <= inject_Z (e_lo_x e) * (1 # 10))%Q
     /\ (inject_Z (e_hi_x e) * (1 # 10) <= vx + w - 50 * (1 # 10) * (1 # 10))%Q
     /\ (vy + 50 * (1 # 10) * (1 # 10) <= inject_Z (e_lo_y e) * (1 # 10))%Q
     /\ (inject_Z (e_hi_y e) * (1 # 10) <= vy + h - 50 * (1 # 10) * (1 # 10))%Q)
  /\ (E = [] ->
      vx == (-100 - 50 * (1 # 10)) * (1 # 10) /\ vy == (-100 - 50 * (1 # 10)) * (1 # 10)
      /\ w == (200 + 100 * (1 # 10)) * (1 # 10) /\ h == (200 + 100 * (1 # 10)) * (1 # 10))%Q.
Proof.
  split; [reflexivity|].
  apply (generate_viewbox_covers [mkWire 0 0 100 0] [mkSymbolInst "R" 300 200 "R0"]
           [(10, -40)] [(0, 0)] [("rectangle"%string, [mkShapeBox (-30) 0 60 80])] (1 # 10)).
  reflexivity.
Defined.

(** ** Built-in symbols *)

Lemma str_lookup_app_absent {V : Type} (k k' : string) (v : V) (m : list (string * V)) :
  str_lookup k (m ++ [(k', v)]) =
  match str_lookup k m with Some w => Some w | None => if String.eqb k k' then Some v else None end.
Proof.
  induction m as [|[a b] m IH]; simpl; [reflexivity|].
  destruct (String.eqb k a); [reflexivity|exact IH].
Qed.

(** [generate] adds the built-in [GND] geometry to the symbol data only
    when no key ["GND"] is present (an existing definition is kept, and a
    lower-case ["gnd"] key does not count), leaves every other key as it
    was, and, when the caller passed a non-empty dictionary, makes that
    dictionary itself the updated one; [None] or an empty dictionary of
    the caller is left as it was. *)
Theorem generate_builtin_gnd {SymDef : Type} (gnd_geometry : SymDef)
  (symbols_data : option (list (string * SymDef))) :
  let given := match symbols_data with Some d => d | None => [] end in
  let '(symbol_data, caller) := generate_symbol_data SymDef gnd_geometry symbols_data in
  str_lookup "GND" symbol_data =
    match str_lookup "GND" given with Some v => Some v | None => Some gnd_geometry end
  /\ (forall k, k <> "GND"%string -> str_lookup k symbol_data = str_lookup k given)
  /\ caller = match symbols_data with
              | Some (_ :: _) => Some symbol_data
              | _ => symbols_data
              end.
Proof.
  intros given.
  assert (Hadd : forall d,
    str_lookup "GND" (add_builtin_symbols SymDef gnd_geometry d) =
      match str_lookup "GND" d with Some v => Some v | None => Some gnd_geometry end
    /\ (forall k, k <> "GND"%string ->
          str_lookup k (add_builtin_symbols SymDef gnd_geometry d) = str_lookup k d)).
  { intros d. cbv [add_builtin_symbols BUILTIN_SYMBOLS fold_left].
    change (str_upper "GND") with "GND"%string. unfold str_mem.
    destruct (str_lookup "GND" d) as [v|] eqn:E.
    - split; [exact E|reflexivity].
    - split.
      + rewrite str_lookup_app_absent, E. reflexivity.
      + intros k Hk. rewrite str_lookup_app_absent.
        destruct (str_lookup k d); [reflexivity|].
        apply String.eqb_neq in Hk. rewrite Hk. reflexivity. }
  unfold generate_symbol_data; subst given.
  destruct symbols_data as [[|e d]|].
  - destruct (Hadd []) as [H1 H2]. split; [exact H1|split; [exact H2|reflexivity]].
  - destruct (Hadd (e :: d)) as [H1 H2]. split; [exact H1|split; [exact H2|reflexivity]].
  - destruct (Hadd []) as [H1 H2]. split; [exact H1|split; [exact H2|reflexivity]].
Qed.

Lemma generate_builtin_gnd_witness :
  let symbols_data := Some [("gnd"%string, 1%nat); ("R"%string, 2%nat)] in
  let given := match symbols_data with Some d => d | None => [] end in
  let '(symbol_data, caller) := generate_symbol_data nat 0%nat symbols_data in
  str_lookup "GND" symbol_data =
    match str_lookup "GND" given with Some v => Some v | None => Some 0%nat end
  /\ (forall k, k <> "GND"%string -> str_lookup k symbol_data = str_lookup k given)
  /\ caller = match symbols_data with
              | Some (_ :: _) => Some symbol_data
              | _ => symbols_data
              end.
Proof. exact (generate_builtin_gnd 0%nat (Some [("gnd"%string, 1%nat); ("R"%string, 2%nat)])). Defined.

(** ** The text and flag loops of the renderer *)

Lemma render_texts_fold {Text : Type} (text_type_of : Text -> option string)
  (nc ns : bool) (texts : list Text) (o : TextsOutcome Text) :
  let ty t := get_default (text_type_of t) "comment"%string in
  let count k := length (filter (fun t => String.eqb (ty t) k) texts) in
  fold_left (render_texts_step Text text_type_of nc ns) texts o =
  mkTextsOutcome Text
    (rendered Text o ++ filter (fun t => (String.eqb (ty t) "comment" && negb nc)
                                     || (String.eqb (ty t) "spice" && negb ns)) texts)
    (rendered_comment Text o + if nc then 0 else count "comment"%string)
    (rendered_spice Text o + if ns then 0 else count "spice"%string)
    (skipped_comment Text o + if nc then count "comment"%string else 0)
    (skipped_spice Text o + if ns then count "spice"%string else 0)
    (text_warnings Text o ++
       map ty (filter (fun t => negb (String.eqb (ty t) "comment"
                                      || String.eqb (ty t) "spice")) texts)).
Proof.
  intros ty count; subst count.
  revert o; induction texts as [|t ts IH]; intros o.
  - destruct o, nc, ns; simpl; rewrite ?app_nil_r, ?Nat.add_0_r; reflexivity.
  - simpl fold_left. rewrite IH. clear IH.
    unfold render_texts_step. fold (ty t).
    destruct (String.eqb (ty t) "comment") eqn:Ec;
      destruct (String.eqb (ty t) "spice") eqn:Es.
    + apply String.eqb_eq in Ec. rewrite Ec in Es. discriminate.
    + destruct nc, ns; cbn [filter map length negb orb andb rendered rendered_comment
        rendered_spice skipped_comment skipped_spice text_warnings]; rewrite ?Ec, ?Es;
        cbn [negb orb andb length]; f_equal; rewrite <- ?app_assoc; try reflexivity; lia.
    + destruct nc, ns; cbn [filter map length negb orb andb rendered rendered_comment
        rendered_spice skipped_comment skipped_spice text_warnings]; rewrite ?Ec, ?Es;
        cbn [negb orb andb length]; f_equal; rewrite <- ?app_assoc; try reflexivity; lia.
    + cbn [filter map length negb orb andb rendered rendered_comment
        rendered_spice skipped_comment skipped_spice text_warnings]; rewrite ?Ec, ?Es;
        cbn [negb orb andb length]; f_equal; rewrite <- ?app_assoc; reflexivity.
Qed.

(** [render_texts] hands to the text renderer, in their order, exactly
    the texts whose type (['comment'] when missing) is ['comment'] with
    [no_schematic_comment] off or ['spice'] with [no_spice_directive]
    off; the texts of a disabled type are only counted as skipped, every
    other type is only reported in a warning, so the rendered, skipped
    and warned texts add up to all texts. Without a loaded schematic and
    drawing it raises [ValueError]. *)
Theorem render_texts_outcome {Text : Type} (text_type_of : Text -> option string)
  (ready nc ns : bool) (texts : list Text) :
  let ty t := get_default (text_type_of t) "comment"%string in
  let count k := length (filter (fun t => String.eqb (ty t) k) texts) in
  render_texts Text text_type_of ready nc ns texts =
  (if ready then
     Ok (mkTextsOutcome Text
           (filter (fun t => (String.eqb (ty t) "comment" && negb nc)
                             || (String.eqb (ty t) "spice" && negb ns)) texts)
           (if nc then 0 else count "comment"%string)
           (if ns then 0 else count "spice"%string)
           (if nc then count "comment"%string else 0)
           (if ns then count "spice"%string else 0)
           (map ty (filter (fun t => negb (String.eqb (ty t) "comment"
                                          || String.eqb (ty t) "spice")) texts)))
   else Err "ValueError")
  /\ forall o, render_texts Text text_type_of ready nc ns texts = Ok o ->
       (rendered_comment Text o + rendered_spice Text o + skipped_comment Text o
        + skipped_spice Text o + length (text_warnings Text o) = length texts)%nat.
Proof.
  intros ty count.
  assert (Hf : render_texts Text text_type_of ready nc ns texts =
    (if ready then
     Ok (mkTextsOutcome Text
           (filter (fun t => (String.eqb (ty t) "comment" && negb nc)
                             || (String.eqb (ty t) "spice" && negb ns)) texts)
           (if nc then 0 else count "comment"%string)
           (if ns then 0 else count "spice"%string)
           (if nc then count "comment"%string else 0)
           (if ns then count "spice"%string else 0)
           (map ty (filter (fun t => negb (String.eqb (ty t) "comment"
                                          || String.eqb (ty t) "spice")) texts)))
     else Err "ValueError")).
  { unfold render_texts. destruct ready; [|reflexivity]. simpl negb; cbv iota.
    rewrite render_texts_fold. reflexivity. }
  split; [exact Hf|].
  intros o Ho. rewrite Hf in Ho. destruct ready; [|discriminate].
  injection Ho as <-. cbn [rendered_comment rendered_spice skipped_comment skipped_spice
    text_warnings]. rewrite length_map. subst count.
  assert (Hsplit : forall l : list Text,
    (length (filter (fun t => String.eqb (ty t) "comment") l)
     + length (filter (fun t => String.eqb (ty t) "spice") l)
     + length (filter (fun t => negb (String.eqb (ty t) "comment"
                                      || String.eqb (ty t) "spice")) l) = length l)%nat).
  { induction l as [|t l IH]; [reflexivity|]. simpl.
    destruct (String.eqb (ty t) "comment") eqn:Ec;
      destruct (String.eqb (ty t) "spice") eqn:Es; simpl; try lia.
    apply String.eqb_eq in Ec. rewrite Ec in Es. discriminate. }
  specialize (Hsplit texts). destruct nc, ns; simpl in Hsplit |- *; lia.
Qed.

Lemma render_texts_outcome_witness :
  let text_type_of := fun t : option string => t in
  let texts := [None; Some "spice"%string; Some "comment"%string; Some "note"%string] in
  let ty t := get_default (text_type_of t) "comment"%string in
  let count k := length (filter (fun t => String.eqb (ty t) k) texts) in
  render_texts (option string) text_type_of true true false texts =
  (if true then
     Ok (mkTextsOutcome (option string)
           (filter (fun t => (String.eqb (ty t) "comment" && negb true)
                             || (String.eqb (ty t) "spice" && negb false)) texts)
           (if true then 0 else count "comment"%string)
           (if false then 0 else count "spice"%string)
           (if true then count "comment"%string else 0)
           (if false then count "spice"%string else 0)
           (map ty (filter (fun t => negb (String.eqb (ty t) "comment"
                                          || String.eqb (ty t) "spice")) texts)))
   else Err "ValueError")
  /\ forall o, render_texts (option string) text_type_of true true false texts = Ok o ->
       (rendered_comment _ o + rendered_spice _ o + skipped_comment _ o
        + skipped_spice _ o + length (text_warnings _ o) = length texts)%nat.
Proof.
  exact (render_texts_outcome (fun t : option string => t) true true false
           [None; Some "spice"%string; Some "comment"%string; Some "note"%string]).
Defined.

Lemma str_lookup_incr (k k' : string) (m : list (string * nat)) :
  str_lookup k (str_incr k' m) =
  if String.eqb k k' then Some (S (get_default (str_lookup k m) 0%nat)) else str_lookup k m.
Proof.
  induction m as [|[a n] m IH]; simpl.
  - destruct (String.eqb k k'); reflexivity.
  - destruct (String.eqb k' a) eqn:E1; simpl.
    + apply String.eqb_eq in E1; subst a.
      destruct (String.eqb k k'); reflexivity.
    + destruct (String.eqb k a) eqn:E2; [|exact IH].
      apply String.eqb_eq in E2; subst a.
      destruct (String.eqb k k') eqn:E3; [|reflexivity].
      apply String.eqb_eq in E3; subst k'. rewrite String.eqb_refl in E1. discriminate.
Qed.

Lemma str_incr_sum (k : string) (m : list (string * nat)) :
  list_sum (map snd (str_incr k m)) = S (list_sum (map snd m)).
Proof.
  induction m as [|[a n] m IH]; simpl; [reflexivity|].
  destruct (String.eqb k a); simpl; [reflexivity|rewrite IH; lia].
Qed.

Lemma render_flags_fold {Flag : Type} (flag_type_of : Flag -> option string)
  (flags : list Flag) (o : FlagsOutcome Flag) :
  let ty f := get_default (flag_type_of f) "net_label"%string in
  let count k := length (filter (fun f => String.eqb (ty f) k) flags) in
  let o' := fold_left (render_flags_step Flag flag_type_of) flags o in
  groups Flag o' = groups Flag o ++ flat_map (fun f => match flag_class (ty f) with
                                                      | Some c => [(c, f)]
                                                      | None => []
                                                      end) flags
  /\ flag_warnings Flag o' =
       flag_warnings Flag o ++ map ty (filter (fun f => match flag_class (ty f) with
                                                        | Some _ => false
                                                        | None => true
                                                        end) flags)
  /\ (forall k, str_lookup k (flag_counts Flag o') =
        match str_lookup k (flag_counts Flag o) with
        | Some n => Some (n + count k)%nat
        | None => if (count k =? 0)%nat then None else Some (count k)
        end)
  /\ list_sum (map snd (flag_counts Flag o')) = (list_sum (map snd (flag_counts Flag o)) + length flags)%nat.
Proof.
  intros ty count o'. subst o' count.
  revert o; induction flags as [|f fs IH]; intros o.
  - simpl. rewrite !app_nil_r. repeat split; [|lia].
    intros k. destruct (str_lookup k (flag_counts Flag o)); [rewrite Nat.add_0_r|]; reflexivity.
  - simpl fold_left.
    set (o1 := render_flags_step Flag flag_type_of o f).
    assert (Hg1 : groups Flag o1 = groups Flag o ++
              match flag_class (ty f) with Some c => [(c, f)] | None => [] end)
      by (subst o1; unfold render_flags_step; fold (ty f);
          destruct (flag_class (ty f)); simpl; rewrite ?app_nil_r; reflexivity).
    assert (Hw1 : flag_warnings Flag o1 = flag_warnings Flag o ++
              match flag_class (ty f) with Some _ => [] | None => [ty f] end)
      by (subst o1; unfold render_flags_step; fold (ty f);
          destruct (flag_class (ty f)); simpl; rewrite ?app_nil_r; reflexivity).
    assert (Hc1 : flag_counts Flag o1 = str_incr (ty f) (flag_counts Flag o))
      by (subst o1; unfold render_flags_step; fold (ty f);
          destruct (flag_class (ty f)); reflexivity).
    destruct (IH o1) as [Hg [Hw [Hc Hs]]]. clearbody o1. clear IH.
    repeat split.
    + rewrite Hg, Hg1. simpl flat_map. rewrite app_assoc. reflexivity.
    + rewrite Hw, Hw1. simpl filter.
      destruct (flag_class (ty f)); simpl; rewrite <- ?app_assoc; reflexivity.
    + intros k. rewrite Hc, Hc1, str_lookup_incr. simpl filter.
      destruct (String.eqb (ty f) k) eqn:E1.
      * apply String.eqb_eq in E1. rewrite E1, String.eqb_refl. simpl length.
        destruct (str_lookup k (flag_counts Flag o)); simpl; f_equal; lia.
      * assert (E2 : String.eqb k (ty f) = false)
          by (rewrite String.eqb_sym; exact E1).
        rewrite E2. reflexivity.
    + rewrite Hs, Hc1, str_incr_sum. simpl length. lia.
Qed.

(** [render_flags] adds one group per flag whose type (['net_label']
    when missing) is ['gnd'], ['net_label'] or ['io_pin'], in the order
    of the flags and with the class ['ground-flag'], ['net-label'] or
    ['io-pin'], and only a warning for any other type. Every flag is
    counted under its type in [flag_counts]: the three known types are
    always present, an other type appears only when some flag has it,
    and the counts sum to the number of flags. Without a loaded schematic
    and drawing it raises [ValueError]. *)
Theorem render_flags_outcome {Flag : Type} (flag_type_of : Flag -> option string)
  (ready : bool) (flags : list Flag) :
  let ty f := get_default (flag_type_of f) "net_label"%string in
  let count k := length (filter (fun f => String.eqb (ty f) k) flags) in
  match render_flags Flag flag_type_of ready flags with
  | Err e => ready = false /\ e = "ValueError"%string
  | Ok o =>
      ready = true
      /\ groups Flag o = flat_map (fun f => match flag_class (ty f) with
                                            | Some c => [(c, f)]
                                            | None => []
                                            end) flags
      /\ flag_warnings Flag o = map ty (filter (fun f => match flag_class (ty f) with
                                                        | Some _ => false
                                                        | None => true
                                                        end) flags)
      /\ (forall k, str_lookup k (flag_counts Flag o) =
            if String.eqb k "gnd" || String.eqb k "net_label" || String.eqb k "io_pin"
            then Some (count k)
            else if (count k =? 0)%nat then None else Some (count k))
      /\ list_sum (map snd (flag_counts Flag o)) = length flags
  end.
Proof.
  intros ty count. unfold render_flags.
  destruct ready; [|split; reflexivity]. simpl negb; cbv iota.
  destruct (render_flags_fold flag_type_of flags
              (mkFlagsOutcome Flag [] [("gnd"%string, 0%nat); ("net_label"%string, 0%nat);
                                       ("io_pin"%string, 0%nat)] []))
    as [Hg [Hw [Hc Hs]]].
  split; [reflexivity|]. split; [exact Hg|]. split; [exact Hw|]. split.
  - intros k. rewrite Hc. fold ty; fold count. cbn [flag_counts str_lookup].
    destruct (String.eqb k "gnd"); [reflexivity|].
    destruct (String.eqb k "net_label"); [reflexivity|].
    destruct (String.eqb k "io_pin"); reflexivity.
  - rewrite Hs. reflexivity.
Qed.

Lemma render_flags_outcome_witness :
  let flag_type_of := fun f : option string => f in
  let flags := [None; Some "gnd"%string; Some "antenna"%string; Some "io_pin"%string] in
  let ty f := get_default (flag_type_of f) "net_label"%string in
  let count k := length (filter (fun f => String.eqb (ty f) k) flags) in
  match render_flags (option string) flag_type_of true flags with
  | Err e => true = false /\ e = "ValueError"%string
  | Ok o =>
      true = true
      /\ groups _ o = flat_map (fun f => match flag_class (ty f) with
                                         | Some c => [(c, f)]
                                         | None => []
                                         end) flags
      /\ flag_warnings _ o = map ty (filter (fun f => match flag_class (ty f) with
                                                     | Some _ => false
                                                     | None => true
                                                     end) flags)
      /\ (forall k, str_lookup k (flag_counts _ o) =
            if String.eqb k "gnd" || String.eqb k "net_label" || String.eqb k "io_pin"
            then Some (count k)
            else if (count k =? 0)%nat then None else Some (count k))
      /\ list_sum (map snd (flag_counts _ o)) = length flags
  end.
Proof.
  exact (render_flags_outcome (fun f : option string => f) true
           [None; Some "gnd"%string; Some "antenna"%string; Some "io_pin"%string]).
Defined.

(** ** Schematic defaults *)

Lemma str_lookup_app {V : Type} (k : string) (l r : list (string * V)) :
  str_lookup k (l ++ r) = match str_lookup k l with Some v => Some v | None => str_lookup k r end.
Proof.
  induction l as [|[a b] l IH]; simpl; [reflexivity|].
  destruct (String.eqb k a); [reflexivity|exact IH].
Qed.

Lemma fold_missing_keys {V : Type} (D l : list (string * V)) :
  NoDup (map fst D) ->
  fold_left (fun result '(key, default_value) =>
               if str_mem key result then result else result ++ [(key, default_value)]) D l
  = l ++ filter (fun '(k, _) => negb (str_mem k l)) D.
Proof.
  revert l; induction D as [|[k v] D IH]; intros l Hnd; simpl.
  - rewrite app_nil_r; reflexivity.
  - inversion Hnd as [|? ? Hk Hrest]; subst.
    destruct (str_mem k l) eqn:Ek; simpl.
    + apply IH; exact Hrest.
    + rewrite IH by exact Hrest. rewrite <- app_assoc. simpl. f_equal. f_equal.
      apply filter_ext_in. intros [k' v'] Hin. unfold str_mem.
      rewrite str_lookup_app_absent.
      destruct (str_lookup k' l); [reflexivity|].
      destruct (String.eqb k' k) eqn:E; [|reflexivity].
      apply String.eqb_eq in E; subst k'. exfalso. apply Hk.
      apply (in_map fst) in Hin. exact Hin.
Qed.

Lemma str_lookup_filter_missing {V : Type} (k : string) (l D : list (string * V)) :
  str_lookup k l = None ->
  str_lookup k (filter (fun '(k', _) => negb (str_mem k' l)) D) = str_lookup k D.
Proof.
  intros Hl. induction D as [|[a b] D IH]; simpl; [reflexivity|].
  destruct (str_mem a l) eqn:Ea; simpl.
  - destruct (String.eqb k a) eqn:E; [|exact IH].
    apply String.eqb_eq in E; subst a. unfold str_mem in Ea. rewrite Hl in Ea. discriminate.
  - destruct (String.eqb k a); [reflexivity|exact IH].
Qed.

(** [_apply_schematic_defaults] returns the given schematic data with,
    appended in the order wires, symbols, texts, shapes, flags, the
    default of each of these keys that is missing: every key present
    keeps its value, each missing one of the five reads as its default
    ([[]] for wires and flags, [{}] for the others) and no other key is
    added. *)
Theorem apply_schematic_defaults_spec {V : Type} (empty_list empty_dict : V)
  (schematic_data : list (string * V)) :
  apply_schematic_defaults V empty_list empty_dict schematic_data =
    schematic_data ++ filter (fun '(k, _) => negb (str_mem k schematic_data))
                             (default_collections V empty_list empty_dict)
  /\ forall k, str_lookup k (apply_schematic_defaults V empty_list empty_dict schematic_data) =
       match str_lookup k schematic_data with
       | Some v => Some v
       | None => str_lookup k (default_collections V empty_list empty_dict)
       end.
Proof.
  assert (Hf : apply_schematic_defaults V empty_list empty_dict schematic_data =
    schematic_data ++ filter (fun '(k, _) => negb (str_mem k schematic_data))
                             (default_collections V empty_list empty_dict)).
  { unfold apply_schematic_defaults. apply fold_missing_keys.
    simpl. repeat constructor; simpl; intuition discriminate. }
  split; [exact Hf|].
  intros k. rewrite Hf, str_lookup_app.
  destruct (str_lookup k schematic_data) eqn:E; [reflexivity|].
  apply str_lookup_filter_missing; exact E.
Qed.

(** ** Vertical text *)

(** A justification ['V' + j] (with [j] itself not starting with V)
    renders the same lines, at the same positions, anchors and font size,
    as the justification [j]; the only difference is the group transform
    [rotate(-90, x, y)] about the text's (default 0) position. *)
Theorem text_render_vertical (x y : option Q) (txt : option string) (j : string)
  (size_multiplier : option Z) (text_type : option string) (font_size : Q) :
  is_vertical j = false ->
  text_render (mkTextRec x y txt (Some (String "V" j)) size_multiplier text_type) font_size =
  result_map (option_map (fun o => mkTextOut (Some (get_default x 0%Q, get_default y 0%Q))
                                             (out_runs o)))
             (text_render (mkTextRec x y txt (Some j) size_multiplier text_type) font_size).
Proof.
  intros Hj. unfold text_render. cbn [t_x t_y t_text t_justification t_size_multiplier t_type].
  destruct txt as [[|c s]|]; [reflexivity| |reflexivity].
  cbn [get_default]. rewrite size_multiplier_get_eq.
  cbn [is_vertical drop_first]. rewrite Hj. reflexivity.
Qed.

Lemma text_render_vertical_witness :
  is_vertical "Top" = false /\
  text_render (mkTextRec (Some 10%Q) None (Some "a"%string) (Some "VTop"%string) None None) 22 =
  result_map (option_map (fun o => mkTextOut (Some (get_default (Some 10%Q) 0%Q,
                                                     get_default None 0%Q))
                                             (out_runs o)))
             (text_render (mkTextRec (Some 10%Q) None (Some "a"%string) (Some "Top"%string)
                             None None) 22).
Proof.
  split; [reflexivity|].
  apply (text_render_vertical (Some 10%Q) None (Some "a"%string) "Top" None None 22).
  reflexivity.
Defined.

(** ** Symbol texts of the generator *)

Lemma zassoc_generator_size (k : Z) :
  zassoc k generator_size_multipliers = None <-> ~ (0 <= k <= 7).
Proof.
  split.
  - intros H Hk.
    assert (k = 0 \/ k = 1 \/ k = 2 \/ k = 3 \/ k = 4 \/ k = 5 \/ k = 6 \/ k = 7) as Hc by lia.
    destruct Hc as [->|[->|[->|[->|[->|[->|[->| ->]]]]]]]; discriminate H.
  - intros Hk. unfold generator_size_multipliers; simpl.
    repeat match goal with
    | |- context [Z.eqb ?a ?b] => destruct (Z.eqb_spec a b); [lia|]
    end; reflexivity.
Qed.

(** With the generator's table, [_add_symbol_text] raises [KeyError]
    exactly when the text record has no ['text'] key or its size index
    (default 2) is not one of 0..7 (there is no fallback size), and
    raises nothing else. *)
Theorem add_symbol_text_key_errors (text_data : TextRec) (scale font_size : Q) :
  let k := get_default (t_size_multiplier text_data) 2 in
  match add_symbol_text text_data scale font_size generator_size_multipliers with
  | Err e => e = "KeyError"%string /\ (t_text text_data = None \/ ~ (0 <= k <= 7))
  | Ok _ => t_text text_data <> None /\ 0 <= k <= 7
  end.
Proof.
  intros k. unfold add_symbol_text.
  destruct (t_text text_data) as [c|]; [|split; [reflexivity|left; reflexivity]].
  fold k. destruct (zassoc k generator_size_multipliers) as [m|] eqn:E.
  - split; [discriminate|].
    destruct (Z_le_dec 0 k), (Z_le_dec k 7); try lia; exfalso;
      assert (zassoc k generator_size_multipliers = None)
        by (apply zassoc_generator_size; lia); congruence.
  - split; [reflexivity|right]. apply zassoc_generator_size; exact E.
Qed.

(** In [_add_symbol_text], ['VTop'] and ['VBottom'] lay out the same lines
    as ['Top'] and ['Bottom'] inside a group rotated by +90 degrees about
    the scaled position, while any justification other than Left, Center,
    Right, Top, VTop and VBottom (['VLeft'], ['VCenter'], ['VRight'] among
    them) is laid out exactly like ['Bottom']: anchor middle, no vertical
    offset and no rotation. *)
Theorem add_symbol_text_justification (x y : option Q) (txt : option string)
  (size_multiplier : option Z) (text_type : option string) (scale font_size : Q)
  (size_multipliers : list (Z * Q)) :
  let add j := add_symbol_text (mkTextRec x y txt (Some j) size_multiplier text_type)
                 scale font_size size_multipliers in
  (forall j, In j ["Top"; "Bottom"]%string ->
     add (String "V" j) =
     result_map (fun o => mkSymTextOut (Some ((get_default x 0 * scale)%Q,
                                              (get_default y 0 * scale)%Q))
                                       (st_runs o)) (add j))
  /\ (forall j, ~ In j ["Left"; "Center"; "Right"; "Top"; "VTop"; "VBottom"]%string ->
        add j = add "Bottom"%string).
Proof.
  intros add. split.
  - intros j Hj. subst add; unfold add_symbol_text; cbn [t_x t_y t_text t_justification
      t_size_multiplier get_default].
    destruct txt; [|reflexivity].
    destruct (zassoc (get_default size_multiplier 2) size_multipliers); [|reflexivity].
    destruct Hj as [<-|[<-|[]]]; reflexivity.
  - intros j Hj. subst add; unfold add_symbol_text; cbn [t_x t_y t_text t_justification
      t_size_multiplier get_default].
    destruct txt; [|reflexivity].
    destruct (zassoc (get_default size_multiplier 2) size_multipliers); [|reflexivity].
    assert (Hne : forall k, In k ["Left"; "Center"; "Right"; "Top"; "VTop"; "VBottom"]%string ->
                    String.eqb j k = false).
    { intros k Hk. apply String.eqb_neq. intros ->. exact (Hj Hk). }
    cbn [existsb]. unfold text_anchor_of, y_offset_of. cbn [existsb].
    rewrite !Hne by (simpl; tauto). reflexivity.
Qed.

Lemma add_symbol_text_key_errors_witness :
  let k := get_default (t_size_multiplier (mkTextRec None None (Some "R1"%string) None (Some 9) None)) 2 in
  match add_symbol_text (mkTextRec None None (Some "R1"%string) None (Some 9) None) (1#10) 22
          generator_size_multipliers with
  | Err e => e = "KeyError"%string /\ (t_text (mkTextRec None None (Some "R1"%string) None (Some 9) None) = None \/ ~ (0 <= k <= 7))
  | Ok _ => t_text (mkTextRec None None (Some "R1"%string) None (Some 9) None) <> None /\ 0 <= k <= 7
  end.
Proof.
  exact (add_symbol_text_key_errors (mkTextRec None None (Some "R1"%string) None (Some 9) None)
           (1#10) 22).
Defined.

Lemma add_symbol_text_justification_witness :
  let add j := add_symbol_text (mkTextRec (Some 16%Q) (Some 32%Q) (Some "R1"%string) (Some j) None None)
                 (1#10) 22 generator_size_multipliers in
  add "VTop"%string =
    result_map (fun o => mkSymTextOut (Some ((get_default (Some 16%Q) 0 * (1#10))%Q,
                                             (get_default (Some 32%Q) 0 * (1#10))%Q))
                                      (st_runs o)) (add "Top"%string)
  /\ add "VLeft"%string = add "Bottom"%string.
Proof.
  destruct (add_symbol_text_justification (Some 16%Q) (Some 32%Q) (Some "R1"%string) None None
              (1#10) 22 generator_size_multipliers) as [H1 H2].
  split.
  - apply (H1 "Top"%string). simpl; tauto.
  - apply (H2 "VLeft"%string). simpl. intros H.
    repeat (destruct H as [H|H]; [discriminate H|]). exact H.
Defined.

(** ** Instance names *)

(** When a symbol has a non-empty instance name and its definition a
    text entry with property_id 0, [_add_symbols] draws the name with the
    font size scaled by that entry's multiplier (default 1.5). For a
    mirrored symbol (rotation type M) the justification is flipped Left to
    Right and Right to Left, so a Left entry is anchored at its end, and any
    justification other than Left, Right, Center, Top and Bottom (a
    vertical one, for instance) raises [KeyError]; for any other rotation
    type the anchor follows the justification and nothing is raised. *)
Theorem instance_name_justification (sx sy : Z) (rotation_type : ascii) (angle : Z)
  (instance_name : string) (texts : list SymTextDef) (d : SymTextDef) (scale font_size : Q) :
  find_instance_text texts = Some d -> instance_name <> EmptyString ->
  let j0 := get_default (d_justification d) "Left"%string in
  let mirrored := Ascii.eqb rotation_type "M" in
  match instance_name_text sx sy rotation_type angle instance_name false texts scale font_size with
  | Err e => e = "KeyError"%string /\ mirrored = true
             /\ ~ In j0 ["Left"; "Right"; "Center"; "Top"; "Bottom"]%string
  | Ok None => False
  | Ok (Some r) =>
      run_text r = instance_name
      /\ run_font_size r = (font_size * get_default (d_size_multiplier d) (3#2))%Q
      /\ run_anchor r = (if mirrored then
                           if String.eqb j0 "Left" then "end"%string
                           else if String.eqb j0 "Right" then "start"%string
                           else "middle"%string
                         else text_anchor_of j0)
      /\ (mirrored = true -> In j0 ["Left"; "Right"; "Center"; "Top"; "Bottom"]%string)
  end.
Proof.
  intros Hd Hn j0 mirrored. unfold instance_name_text.
  destruct instance_name as [|c rest]; [contradiction|]. rewrite Hd. fold j0.
  destruct (transform_terminal rotation_type angle (d_x d, d_y d)) as [tx ty].
  subst mirrored. destruct (Ascii.eqb rotation_type "M").
  - unfold mirror_justification.
    destruct (String.eqb j0 "Left") eqn:EL.
    { apply String.eqb_eq in EL. rewrite EL. repeat split; simpl; tauto. }
    destruct (String.eqb j0 "Right") eqn:ER.
    { apply String.eqb_eq in ER. rewrite ER. repeat split; simpl; tauto. }
    destruct (String.eqb j0 "Center") eqn:EC.
    { apply String.eqb_eq in EC. rewrite EC. repeat split; simpl; tauto. }
    destruct (String.eqb j0 "Top") eqn:ET.
    { apply String.eqb_eq in ET. rewrite ET. repeat split; simpl; tauto. }
    destruct (String.eqb j0 "Bottom") eqn:EB.
    { apply String.eqb_eq in EB. rewrite EB. repeat split; simpl; tauto. }
    split; [reflexivity|split; [reflexivity|]].
    apply String.eqb_neq in EL, ER, EC, ET, EB.
    simpl. intros [H|[H|[H|[H|[H|[]]]]]]; symmetry in H; contradiction.
  - repeat split. intros H; discriminate H.
Qed.

Lemma instance_name_justification_witness :
  find_instance_text [mkSymTextDef (Some 3) 0 0 None None;
                      mkSymTextDef (Some 0) 24 8 (Some "VTop"%string) (Some 1%Q)] =
    Some (mkSymTextDef (Some 0) 24 8 (Some "VTop"%string) (Some 1%Q))
  /\ "R1"%string <> EmptyString
  /\ (let j0 := get_default (d_justification (mkSymTextDef (Some 0) 24 8 (Some "VTop"%string) (Some 1%Q)))
                  "Left"%string in
      let mirrored := Ascii.eqb "M" "M" in
      match instance_name_text 64 32 "M" 90 "R1" false
              [mkSymTextDef (Some 3) 0 0 None None;
               mkSymTextDef (Some 0) 24 8 (Some "VTop"%string) (Some 1%Q)] (1#10) 22 with
      | Err e => e = "KeyError"%string /\ mirrored = true
                 /\ ~ In j0 ["Left"; "Right"; "Center"; "Top"; "Bottom"]%string
      | Ok None => False
      | Ok (Some r) =>
          run_text r = "R1"%string
          /\ run_font_size r = (22 * get_default (d_size_multiplier
                 (mkSymTextDef (Some 0%Z) 24%Z 8%Z (Some "VTop"%string) (Some 1%Q))) (3#2))%Q
          /\ run_anchor r = (if mirrored then
                               if String.eqb j0 "Left" then "end"%string
                               else if String.eqb j0 "Right" then "start"%string
                               else "middle"%string
                             else text_anchor_of j0)
          /\ (mirrored = true -> In j0 ["Left"; "Right"; "Center"; "Top"; "Bottom"]%string)
      end).
Proof.
  split; [reflexivity|]. split; [discriminate|].
  apply (instance_name_justification 64 32 "M" 90 "R1"
           [mkSymTextDef (Some 3) 0 0 None None;
            mkSymTextDef (Some 0) 24 8 (Some "VTop"%string) (Some 1%Q)]
           (mkSymTextDef (Some 0) 24 8 (Some "VTop"%string) (Some 1%Q)) (1#10) 22);
    [reflexivity|discriminate].
Defined.

(** The terminal points excluded by [_find_t_junctions] ignore the
    symbols' rotation: they are those [_get_single_symbol_terminals]
    gives for the same symbols with rotation R0, whatever their actual
    rotation strings (an empty one included). *)
Theorem generator_terminals_ignore_rotation (symbols : list SymbolInst) :
  get_symbol_terminals
    (map (fun s => mkSymbolInst (symbol_name s) (sym_x s) (sym_y s) "R0") symbols)
  = Some (generator_symbol_terminals symbols).
Proof.
  induction symbols as [|s ss IH]; [reflexivity|].
  simpl. rewrite IH. unfold symbol_terminals; cbn [symbol_name sym_x sym_y rotation].
  unfold generator_symbol_terminals; simpl flat_map.
  destruct (base_terminals (symbol_name s)) as [|b bs] eqn:E; [reflexivity|].
  simpl parse_rotation. cbv iota beta.
  f_equal. f_equal.
  apply map_ext. intros [tx ty]. reflexivity.
Qed.
